(** * check-email-js: a shallow embedding of [src/index.ts]

    The module validates e-mail addresses with regular expressions that it
    assembles from template strings.  The development has four layers:

    - [Regex]: the pattern language (character sets, sequencing, counted
      repetition), its denotation as a set of words and an executable
      matcher based on derivatives, proved equivalent to the denotation;
    - [Reader]: the part of the ECMAScript pattern syntax (without the
      unicode flag, Annex B rules) that the templates of [index.ts] can
      produce, read from the pattern text as [new RegExp] does, including
      the early error of an out-of-order braced quantifier;
    - [JS]: the dynamically typed values that reach [checkEmail] through
      its options object, with truthiness, [typeof] and string conversion;
    - the three functions of [index.ts]: [getResponse], [validateDomains]
      and [checkEmail], followed by the properties of the specification. *)

From Stdlib Require Import String Ascii List Bool NArith ZArith Lia.
From Stdlib Require Import DecimalString DecimalN DecimalPos Permutation.
Import ListNotations.



Local Open Scope string_scope.

(** Words are sequences of code units.  Strings of the embedding are Rocq
    strings, so a code unit is one of the 256 values of [ascii]. *)
Definition word := list ascii.

(* ================================================================= *)
(** ** Regular expressions and their matcher *)

Module Regex.

Local Open Scope list_scope.

(** Character sets of the pattern syntax: [.], [\w], [\W], [\d], [\D], a
    pattern character, and a bracketed class given by its ranges (a single
    member [c] is the range [c-c]). *)
Inductive charset : Type :=
| CAny
| CWord (neg : bool)
| CDigit (neg : bool)
| CLit (c : ascii)
| CClass (neg : bool) (ranges : list (ascii * ascii)).

Definition in_range (lo hi c : ascii) : bool :=
  (N_of_ascii lo <=? N_of_ascii c)%N && (N_of_ascii c <=? N_of_ascii hi)%N.

Definition is_digit (c : ascii) : bool := in_range "0" "9" c.

Definition is_alpha (c : ascii) : bool :=
  in_range "a" "z" c || in_range "A" "Z" c.

(** [\w] without the unicode and ignore-case flags: [A-Za-z0-9_]. *)
Definition is_word (c : ascii) : bool :=
  is_alpha c || is_digit c || Ascii.eqb c "_".

(** Line terminators among the code units of the embedding: LF and CR. *)
Definition is_line_terminator (c : ascii) : bool :=
  Ascii.eqb c "010" || Ascii.eqb c "013".

Definition accepts (cs : charset) (c : ascii) : bool :=
  match cs with
  | CAny => negb (is_line_terminator c)
  | CWord neg => xorb neg (is_word c)
  | CDigit neg => xorb neg (is_digit c)
  | CLit d => Ascii.eqb c d
  | CClass neg ranges =>
      xorb neg (existsb (fun '(lo, hi) => in_range lo hi c) ranges)
  end.

(** [Rep r lo hi] is [r{lo,hi}]; [hi = None] is an open upper bound.
    [Void] and [Alt] only arise while the matcher runs. *)
Inductive regex : Type :=
| Void
| Eps
| Chr (cs : charset)
| Cat (r1 r2 : regex)
| Alt (r1 r2 : regex)
| Rep (r : regex) (lo : N) (hi : option N).

Definition Star (r : regex) : regex := Rep r 0 None.
Definition Plus (r : regex) : regex := Rep r 1 None.
Definition Opt (r : regex) : regex := Rep r 0 (Some 1%N).

(** *** Denotation *)

Definition language := word -> Prop.

Fixpoint power (L : language) (k : nat) : language :=
  match k with
  | O => fun s => s = []
  | S k' => fun s => exists s1 s2, s = s1 ++ s2 /\ L s1 /\ power L k' s2
  end.

Definition within (lo : N) (hi : option N) (k : nat) : Prop :=
  (lo <= N.of_nat k)%N /\
  match hi with Some h => (N.of_nat k <= h)%N | None => True end.

Fixpoint lang (r : regex) : language :=
  match r with
  | Void => fun _ => False
  | Eps => fun s => s = []
  | Chr cs => fun s => exists c, s = [c] /\ accepts cs c = true
  | Cat r1 r2 =>
      fun s => exists s1 s2, s = s1 ++ s2 /\ lang r1 s1 /\ lang r2 s2
  | Alt r1 r2 => fun s => lang r1 s \/ lang r2 s
  | Rep r1 lo hi => fun s => exists k, within lo hi k /\ power (lang r1) k s
  end.

(** *** Matcher *)

Definition bounds_ok (lo : N) (hi : option N) : bool :=
  match hi with Some h => (lo <=? h)%N | None => true end.

Definition exhausted (hi : option N) : bool :=
  match hi with Some h => (h =? 0)%N | None => false end.

Fixpoint nullable (r : regex) : bool :=
  match r with
  | Void => false
  | Eps => true
  | Chr _ => false
  | Cat r1 r2 => nullable r1 && nullable r2
  | Alt r1 r2 => nullable r1 || nullable r2
  | Rep r1 lo hi => bounds_ok lo hi && ((lo =? 0)%N || nullable r1)
  end.

(** Smart constructors keep the derivatives small. *)
Definition cat (r1 r2 : regex) : regex :=
  match r1, r2 with
  | Void, _ => Void
  | _, Void => Void
  | Eps, _ => r2
  | _, _ => Cat r1 r2
  end.

Definition alt (r1 r2 : regex) : regex :=
  match r1, r2 with
  | Void, _ => r2
  | _, Void => r1
  | _, _ => Alt r1 r2
  end.

Fixpoint der (c : ascii) (r : regex) : regex :=
  match r with
  | Void => Void
  | Eps => Void
  | Chr cs => if accepts cs c then Eps else Void
  | Cat r1 r2 =>
      alt (cat (der c r1) r2) (if nullable r1 then der c r2 else Void)
  | Alt r1 r2 => alt (der c r1) (der c r2)
  | Rep r1 lo hi =>
      if bounds_ok lo hi && negb (exhausted hi)
      then cat (der c r1) (Rep r1 (N.pred lo) (option_map N.pred hi))
      else Void
  end.

Fixpoint matches (r : regex) (s : word) : bool :=
  match s with
  | [] => nullable r
  | c :: s' => matches (der c r) s'
  end.

End Regex.

(* ================================================================= *)
(** ** Reading a pattern text *)

(** What an operation of the embedding can do: return a value, throw, or
    leave the fragment of the language that the embedding covers. *)
Inductive exn : Type :=
| SyntaxError.

Inductive outcome (A : Type) : Type :=
| Return (a : A)
| Throw (e : exn)
| Beyond.

Arguments Return {A} a.
Arguments Throw {A} e.
Arguments Beyond {A}.

Definition bind {A B : Type} (m : outcome A) (k : A -> outcome B)
  : outcome B :=
  match m with
  | Return a => k a
  | Throw e => Throw e
  | Beyond => Beyond
  end.

Declare Scope outcome_scope.
Delimit Scope outcome_scope with outcome.
Notation "x <- m ;; k" := (bind m (fun x => k))
  (at level 61, m at next level, right associativity) : outcome_scope.

Module Reader.

Import Regex.
Local Open Scope list_scope.
Local Open Scope char_scope.

(** The reader covers: pattern characters, [.], the escapes [\w \W \d \D]
    and identity escapes of non-word characters, bracketed classes without
    escapes, capturing and [(?:] groups, the quantifiers [* + ?] and
    [{n}], [{n,}], [{n,m}] with an optional lazy mark, [^] at the very
    start and [$] at the very end.  A brace that does not open a
    well-formed quantifier is a pattern character (Annex B).  Anything
    else (alternation, other escapes, look-around, inner anchors) is
    [TBeyond]. *)
Inductive token : Type :=
| TChar (cs : charset)
| TOpen
| TClose
| TQuant (lo : N) (hi : option N)
| TBol
| TEol
| TError
| TBeyond.

(** **** Braced quantifiers *)

Definition digit (c : ascii) : option (Decimal.uint -> Decimal.uint) :=
  match c with
  | "0" => Some Decimal.D0 | "1" => Some Decimal.D1
  | "2" => Some Decimal.D2 | "3" => Some Decimal.D3
  | "4" => Some Decimal.D4 | "5" => Some Decimal.D5
  | "6" => Some Decimal.D6 | "7" => Some Decimal.D7
  | "8" => Some Decimal.D8 | "9" => Some Decimal.D9
  | _ => None
  end.

(** The leading decimal digits of [s], how many they are, and what
    follows them. *)
Fixpoint scan_digits (s : word) : Decimal.uint * nat * word :=
  match s with
  | [] => (Decimal.Nil, O, [])
  | c :: r =>
      match digit c with
      | Some k => let '(d, n, rest) := scan_digits r in (k d, S n, rest)
      | None => (Decimal.Nil, O, s)
      end
  end.

(** [scan_brace s] reads what follows an opening brace: the bounds of the
    quantifier and the number of code units up to and including the
    closing brace. *)
Definition scan_brace (s : word) : option (N * option N * nat) :=
  let '(d1, n1, r1) := scan_digits s in
  match n1 with
  | O => None
  | S _ =>
      match r1 with
      | "}" :: _ => Some (N.of_uint d1, Some (N.of_uint d1), n1 + 1)%nat
      | "," :: r2 =>
          let '(d2, n2, r3) := scan_digits r2 in
          match r3 with
          | "}" :: _ =>
              Some (N.of_uint d1,
                    match n2 with O => None | S _ => Some (N.of_uint d2) end,
                    n1 + n2 + 2)%nat
          | _ => None
          end
      | _ => None
      end
  end.

(** **** Bracketed classes *)

Inductive class_scan : Type :=
| ClassDone (ranges : list (ascii * ascii)) (consumed : nat)
| ClassError
| ClassBeyond.

Definition class_add (r : ascii * ascii) (n : nat) (k : class_scan)
  : class_scan :=
  match k with
  | ClassDone rs m => ClassDone (r :: rs) (n + m)
  | other => other
  end.

(** The members of a class up to its closing bracket.  [a-b] is a range
    unless the dash is the last member. *)
Fixpoint scan_class (s : word) : class_scan :=
  match s with
  | [] => ClassError
  | "]" :: _ => ClassDone [] 1
  | "\" :: _ => ClassBeyond
  | a :: r =>
      match r with
      | "-" :: b :: r' =>
          match b with
          | "]" => class_add (a, a) 1 (scan_class r)
          | "\" => ClassBeyond
          | _ =>
              if (N_of_ascii a <=? N_of_ascii b)%N
              then class_add (a, b) 3 (scan_class r')
              else ClassError
          end
      | _ => class_add (a, a) 1 (scan_class r)
      end
  end.

(** **** Tokens *)

Definition escape (c : ascii) : token :=
  match c with
  | "w" => TChar (CWord false)
  | "W" => TChar (CWord true)
  | "d" => TChar (CDigit false)
  | "D" => TChar (CDigit true)
  | _ => if is_word c then TBeyond else TChar (CLit c)
  end.

Definition class_token (neg : bool) (extra : nat) (k : class_scan)
  : token * nat :=
  match k with
  | ClassDone rs n => (TChar (CClass neg rs), extra + n)%nat
  | ClassError => (TError, O)
  | ClassBeyond => (TBeyond, O)
  end.

(** The token that starts with [c], and how many code units of [rest] it
    takes with it. *)
Definition next_token (c : ascii) (rest : word) : token * nat :=
  match c with
  | "\" => match rest with
           | [] => (TError, O)
           | d :: _ => (escape d, 1%nat)
           end
  | "[" => match rest with
           | "^" :: r => class_token true 1 (scan_class r)
           | _ => class_token false 0 (scan_class rest)
           end
  | "{" => match scan_brace rest with
           | Some (lo, hi, n) =>
               if bounds_ok lo hi then (TQuant lo hi, n) else (TError, O)
           | None => (TChar (CLit "{"), O)
           end
  | "*" => (TQuant 0 None, O)
  | "+" => (TQuant 1 None, O)
  | "?" => (TQuant 0 (Some 1%N), O)
  | "(" => match rest with
           | "?" :: ":" :: _ => (TOpen, 2%nat)
           | "?" :: _ => (TBeyond, O)
           | _ => (TOpen, O)
           end
  | ")" => (TClose, O)
  | "^" => (TBol, O)
  | "$" => (TEol, O)
  | "|" => (TBeyond, O)
  | "." => (TChar CAny, O)
  | _ => (TChar (CLit c), O)
  end.

Fixpoint tokens (skip : nat) (s : word) : list token :=
  match s with
  | [] => []
  | c :: rest =>
      match skip with
      | S k => tokens k rest
      | O => let '(t, n) := next_token c rest in t :: tokens n rest
      end
  end.

(** **** Terms *)

(** Whether the last term can still take a quantifier, has one, or has a
    lazy one. *)
Inductive mark : Type := Bare | Greedy | Lazy.

Record frame : Type := Frame {
  done : option regex;           (* the terms before the last one *)
  last : option (regex * mark)   (* the last term *)
}.

Definition snoc (d : option regex) (r : regex) : option regex :=
  Some (match d with None => r | Some a => Cat a r end).

Definition flush (f : frame) : option regex :=
  match last f with
  | None => done f
  | Some (r, _) => snoc (done f) r
  end.

Definition push (f : frame) (r : regex) : frame :=
  Frame (flush f) (Some (r, Bare)).

Definition close (f : frame) : regex :=
  match flush f with None => Eps | Some r => r end.

Record state : Type := State {
  bol : bool;            (* the pattern starts with ^ *)
  eol : bool;            (* a $ has been read *)
  cur : frame;           (* the innermost open sequence *)
  stack : list frame     (* the sequences of the enclosing groups *)
}.

Definition empty_frame : frame := Frame None None.
Definition initial : state := State false false empty_frame [].

Definition pristine (st : state) : bool :=
  negb (bol st) &&
  match done (cur st), last (cur st), stack st with
  | None, None, [] => true
  | _, _, _ => false
  end.

Definition is_lazy_mark (lo : N) (hi : option N) : bool :=
  (lo =? 0)%N && match hi with Some h => (h =? 1)%N | None => false end.

Definition step (st : state) (t : token) : outcome state :=
  if eol st then
    match t with TError => Throw SyntaxError | _ => Beyond end
  else
    match t with
    | TChar cs => Return (State (bol st) false (push (cur st) (Chr cs)) (stack st))
    | TOpen => Return (State (bol st) false empty_frame (cur st :: stack st))
    | TClose =>
        match stack st with
        | [] => Throw SyntaxError
        | f :: fs => Return (State (bol st) false (push f (close (cur st))) fs)
        end
    | TQuant lo hi =>
        match last (cur st) with
        | None => Throw SyntaxError
        | Some (r, Bare) =>
            Return (State (bol st) false
                      (Frame (done (cur st)) (Some (Rep r lo hi, Greedy)))
                      (stack st))
        | Some (r, Greedy) =>
            if is_lazy_mark lo hi
            then Return (State (bol st) false
                           (Frame (done (cur st)) (Some (r, Lazy)))
                           (stack st))
            else Throw SyntaxError
        | Some (_, Lazy) => Throw SyntaxError
        end
    | TBol =>
        if pristine st
        then Return (State true false (cur st) (stack st))
        else Beyond
    | TEol =>
        match stack st with
        | [] => Return (State (bol st) true (cur st) [])
        | _ => Beyond
        end
    | TError => Throw SyntaxError
    | TBeyond => Beyond
    end.

Fixpoint run (st : state) (ts : list token) : outcome state :=
  match ts with
  | [] => Return st
  | t :: ts' => bind (step st t) (fun st' => run st' ts')
  end.

(** A compiled pattern: its body and whether it is tied to the start and
    to the end of the input. *)
Record RegExp : Type := MkRegExp {
  from_start : bool;
  body : regex;
  to_end : bool
}.

Definition finish (st : state) : outcome RegExp :=
  match stack st with
  | [] => Return (MkRegExp (bol st) (close (cur st)) (eol st))
  | _ => Throw SyntaxError
  end.

Definition read (src : word) : outcome RegExp :=
  bind (run initial (tokens 0 src)) finish.

(** [RegExp.prototype.test] for a pattern without flags: some part of
    the input matches, at the start or up to the end where the pattern
    says so. *)
Definition anything : regex := Star (Chr (CClass true [])).

Definition search_form (re : RegExp) : regex :=
  Cat (if from_start re then Eps else anything)
      (Cat (body re) (if to_end re then Eps else anything)).

Definition test_word (re : RegExp) (s : word) : bool :=
  matches (search_form re) s.

End Reader.

Definition new_RegExp (src : string) : outcome Reader.RegExp :=
  Reader.read (list_ascii_of_string src).

Definition test (re : Reader.RegExp) (s : string) : bool :=
  Reader.test_word re (list_ascii_of_string s).


(* ================================================================= *)
(** ** Values of the options object *)

Module JS.

(** A number is NaN, an infinity, or a double with an integral value.
    [Integer z] stands for the double whose value is [z]: it has the
    decimal rendering given below when [Z.abs z < 10^21], which is where
    every claim about a rendered number is stated.  Negative zero behaves
    as [Integer 0] in everything [checkEmail] does with a number
    (truthiness and rendering).  Fractional doubles are not represented. *)
Inductive number : Type :=
| NaN
| Infinity (negative : bool)
| Integer (z : Z).

#[warnings="-register-all"]
Inductive value : Type :=
| VUndefined
| VNull
| VBool (b : bool)
| VNumber (n : number)
| VString (s : string)
| VArray (elems : list value)
| VObject.                       (* any other object *)

Definition number_truthy (n : number) : bool :=
  match n with
  | NaN => false
  | Infinity _ => true
  | Integer z => negb (z =? 0)%Z
  end.

Definition truthy (v : value) : bool :=
  match v with
  | VUndefined | VNull => false
  | VBool b => b
  | VNumber n => number_truthy n
  | VString s => negb (String.eqb s "")
  | VArray _ | VObject => true
  end.

Definition is_number (v : value) : bool :=
  match v with VNumber _ => true | _ => false end.

Definition is_string (v : value) : bool :=
  match v with VString _ => true | _ => false end.

(** A destructuring default: [{ x = d }] binds [d] when the property
    is [undefined]. *)
Definition default_to (d v : value) : value :=
  match v with VUndefined => d | _ => v end.

(** [Array.isArray(v) && v.length === 0] *)
Definition is_empty_array (v : value) : bool :=
  match v with VArray [] => true | _ => false end.

(** [a || b] *)
Definition or_else (a b : value) : value := if truthy a then a else b.

(** Number::toString, radix 10. *)
Definition number_to_string (n : number) : string :=
  match n with
  | NaN => "NaN"
  | Infinity false => "Infinity"
  | Infinity true => "-Infinity"
  | Integer z => NilZero.string_of_int (Z.to_int z)
  end.

(** ToString, as a template literal applies it; an array renders as its
    elements joined by commas, [null] and [undefined] elements as the
    empty string. *)
Fixpoint to_string (v : value) : string :=
  match v with
  | VUndefined => "undefined"
  | VNull => "null"
  | VBool true => "true"
  | VBool false => "false"
  | VNumber n => number_to_string n
  | VString s => s
  | VArray elems =>
      String.concat ","
        (List.map (fun e => match e with
                            | VUndefined | VNull => ""
                            | _ => to_string e
                            end) elems)
  | VObject => "[object Object]"
  end.

(** [String.prototype.split] with a separator of one code unit. *)
Fixpoint split (sep : ascii) (s : string) : list string :=
  match s with
  | EmptyString => [EmptyString]
  | String c r =>
      if Ascii.eqb c sep then EmptyString :: split sep r
      else match split sep r with
           | h :: t => String c h :: t
           | [] => [String c EmptyString]
           end
  end.

(** An array element read by a destructuring pattern and then rendered
    in a template: a missing element is [undefined]. *)
Definition element (i : nat) (parts : list string) : string :=
  match nth_error parts i with
  | Some s => s
  | None => to_string VUndefined
  end.

End JS.

Import JS.

(* ================================================================= *)
(** ** [interface.ts] *)

(** An absent property is [VUndefined]. *)
Record CheckEmailOptions : Type := Options {
  domains : value;
  max : value
}.

(** [error] is [None] when the object has no [error] property. *)
Record ValidationResult : Type := Result {
  valid : bool;
  error : option string
}.

(* ================================================================= *)
(** ** [index.ts] *)

Definition DOMAIN_REGEX_source : string := "^\w+\.[a-zA-Z]{2,}$".

(** The literal, compiled: what [new_RegExp] returns for the text above
    ([PatternFacts.read_DOMAIN_REGEX]). *)
Definition DOMAIN_REGEX : Reader.RegExp :=
  Reader.MkRegExp true
    (Regex.Cat
       (Regex.Cat (Regex.Plus (Regex.Chr (Regex.CWord false)))
                  (Regex.Chr (Regex.CLit ".")))
       (Regex.Rep
          (Regex.Chr (Regex.CClass false
                        [("a", "z"); ("A", "Z")]%char)) 2 None))
    true.

Definition EMAIL_WITH_DOMAIN_REGEX (name extension : string)
  : outcome Reader.RegExp :=
  new_RegExp ("^\w+([.-]?\w+)*@" ++ name ++ "\." ++ extension ++ "$").

(** [x || y] on an optional string: [null] and the empty string are falsy. *)
Definition string_truthy (x : option string) : bool :=
  match x with
  | Some e => negb (String.eqb e "")
  | None => false
  end.

Definition getResponse (valid : bool) (email : option string)
    (error : option string) : ValidationResult :=
  if valid then Result valid None
  else
    let generic :=
      to_string (match email with Some e => VString e | None => VNull end)
      ++ " is not a valid email." in
    let message :=
      match error with
      | Some e => if string_truthy error then e else generic
      | None => generic
      end in
    Result valid (if negb valid then Some message else None).

Definition validateDomains (domains : list string) : ValidationResult :=
  let errors :=
    List.filter (fun domain => negb (test DOMAIN_REGEX domain)) domains in
  let hasErrors := (0 <? List.length errors)%nat in
  let message :=
    if hasErrors
    then Some ("[" ++ String.concat ", " errors ++ "] are not valid domains.")
    else None in
  getResponse (negb hasErrors) None message.

(** What the two type tests of [checkEmail] find in [domains]: a string,
    an array whose elements are all strings, or neither. *)
Inductive domains_shape : Type :=
| OneString (s : string)
| Strings (l : list string)
| Neither.

Definition shape (domains : value) : domains_shape :=
  match domains with
  | VString s => OneString s
  | VArray elems =>
      if List.forallb is_string elems
      then Strings (List.map to_string elems)
      else Neither
  | _ => Neither
  end.

Definition isStringOrArray (domains : value) : bool :=
  match shape domains with Neither => false | _ => true end.

Definition domains_type_error : ValidationResult :=
  getResponse false None
    (Some "`domains` can only have a value of string or array of strings.").

Local Open Scope outcome_scope.

(** The loop over the domains, left at the first match. *)
Fixpoint matchDomains (email : string) (domains : list string)
  : outcome bool :=
  match domains with
  | [] => Return false
  | domain :: rest =>
      let parts := split "." domain in
      re <- EMAIL_WITH_DOMAIN_REGEX (element 0 parts) (element 1 parts) ;;
      if test re email then Return true else matchDomains email rest
  end.

Definition checkEmail (email : string) (options : CheckEmailOptions)
  : outcome ValidationResult :=
  let domains := domains options in
  let max := default_to VNull (max options) in
  if truthy max && negb (is_number max) then
    Return (getResponse false None
              (Some "`max` can only have a value of number."))
  else if negb (truthy domains) || is_empty_array domains then
    standardPattern <-
      new_RegExp ("^\w+([.-]?\w+)*@\w+([.-]?\w+)*(\.\w{2,"
                  ++ to_string (or_else max (VNumber (Integer 3)))
                  ++ "})+$") ;;
    Return (getResponse (test standardPattern email) (Some email) None)
  else if negb (isStringOrArray domains) then
    Return domains_type_error
  else if truthy max then
    Return (getResponse false None
              (Some "`max` can only be used if `domains` are not provided."))
  else
    match shape domains with
    | OneString emailDomain | Strings [emailDomain] =>
        let isDomainValid := test DOMAIN_REGEX emailDomain in
        if negb isDomainValid then
          Return (getResponse false (Some email)
                    (Some ("`" ++ to_string domains
                           ++ "` is not a valid domain.")))
        else
          let parts := split "." emailDomain in
          re <- EMAIL_WITH_DOMAIN_REGEX (element 0 parts) (element 1 parts) ;;
          Return (getResponse (test re email) (Some email) None)
    | Strings list =>
        let domainResults := validateDomains list in
        if string_truthy (error domainResults) then
          Return (getResponse false (Some email) (error domainResults))
        else
          isValid <- matchDomains email list ;;
          Return (getResponse isValid (Some email) None)
    | Neither => Return domains_type_error
    end.

(** [src] is a well-formed pattern and [s] passes its [test]. *)
Definition matches_pattern (src : string) (s : string) : Prop :=
  exists re, new_RegExp src = Return re /\ test re s = true.

(* ================================================================= *)
(** ** Vocabulary of the properties *)

(** [checkEmail(email)] *)
Definition no_options : CheckEmailOptions := Options VUndefined VUndefined.

(** An array of strings. *)
Definition strings (l : list string) : value := VArray (List.map VString l).

(** [domains] absent, or an empty list. *)
Definition absent_or_empty (d : value) : Prop :=
  d = VUndefined \/ d = VArray [].

(** [max] is falsy or a number: the type guard lets it through. *)
Definition passes_max_guard (m : value) : Prop :=
  truthy m = false \/ is_number m = true.

(** The text that the standard pattern gets for its upper bound. *)
Definition tld_bound (m : value) : string :=
  if truthy m then to_string m else "3".

(** The domains that fail the format test, in their order. *)
Definition offending (l : list string) : list string :=
  List.filter (fun d => negb (test DOMAIN_REGEX d)) l.

Definition max_type_error : ValidationResult :=
  Result false (Some "`max` can only have a value of number.").

Definition max_with_domains_error : ValidationResult :=
  Result false
    (Some "`max` can only be used if `domains` are not provided.").

Definition not_a_valid_email (email : string) : ValidationResult :=
  Result false (Some (email ++ " is not a valid email.")).

(* ================================================================= *)
(** ** The patterns of [index.ts] as terms *)

Module Patterns.

Import Regex.
Local Open Scope list_scope.
Local Open Scope char_scope.

Definition word_char : regex := Chr (CWord false).

(** [[.-]] *)
Definition separator : regex := Chr (CClass false [(".", "."); ("-", "-")]).

(** [\w+([.-]?\w+)*] *)
Definition dotted_words : regex :=
  Cat (Plus word_char) (Star (Cat (Opt separator) (Plus word_char))).

(** [r] followed by the code units of [w], one pattern character each. *)
Definition lits (r : regex) (w : word) : regex :=
  fold_left (fun a c => Cat a (Chr (CLit c))) w r.

(** [^\w+([.-]?\w+)*$] *)
Definition local_part : Reader.RegExp :=
  Reader.MkRegExp true dotted_words true.

(** [^\w+([.-]?\w+)*@<domain>$], every code unit of [domain] standing
    for itself. *)
Definition exact_domain (domain : string) : Reader.RegExp :=
  Reader.MkRegExp true
    (lits dotted_words (list_ascii_of_string ("@" ++ domain)))
    true.

(** [(\.\w{2,L})] *)
Definition extension (L : N) : regex :=
  Cat (Chr (CLit ".")) (Rep word_char 2 (Some L)).

(** [\w+([.-]?\w+)*@\w+([.-]?\w+)*] *)
Definition address_stem : regex :=
  Cat (Cat (Cat (Cat (Plus word_char)
                     (Star (Cat (Opt separator) (Plus word_char))))
                (Chr (CLit "@")))
           (Plus word_char))
      (Star (Cat (Opt separator) (Plus word_char))).

(** [^\w+([.-]?\w+)*@\w+([.-]?\w+)*(\.\w{2,L})+$] *)
Definition standard (L : N) : Reader.RegExp :=
  Reader.MkRegExp true (Cat address_stem (Plus (extension L))) true.

Definition standard_source (bound : string) : string :=
  ("^\w+([.-]?\w+)*@\w+([.-]?\w+)*(\.\w{2," ++ bound ++ "})+$")%string.

(** The token of a pattern character, and a frame after a run of them. *)
Definition lit (c : ascii) : Reader.token := Reader.TChar (CLit c).

Definition push_lits (f : Reader.frame) (w : word) : Reader.frame :=
  fold_left (fun f c => Reader.push f (Chr (CLit c))) w f.

(** The decimal digits of a positive integer. *)
Definition decimal (p : positive) : word :=
  list_ascii_of_string (NilEmpty.string_of_uint (Pos.to_uint p)).

(** The standard pattern up to its braced quantifier, and the reader's
    state after it. *)
Definition stem_source : string := "^\w+([.-]?\w+)*@\w+([.-]?\w+)*(\.\w".

Definition stem_tokens : list Reader.token :=
  Eval vm_compute in Reader.tokens 0 (list_ascii_of_string stem_source).

Definition stem_state : Reader.state :=
  Eval vm_compute in
    match Reader.run Reader.initial stem_tokens with
    | Return st => st
    | _ => Reader.initial
    end.

(** No code unit of [s] is [sep]. *)
Definition free_of (sep : ascii) (s : string) : bool :=
  forallb (fun c => negb (Ascii.eqb c sep)) (list_ascii_of_string s).

(** The pattern of the specification with a single extension. *)
Definition narrow_source : string :=
  "^\w+([.-]?\w+)*@\w+([.-]?\w+)*\.\w{2,3}$".

(** Whether [s] ends with [suffix]. *)
Fixpoint starts (p s : word) : bool :=
  match p, s with
  | [], _ => true
  | a :: p', b :: s' => Ascii.eqb a b && starts p' s'
  | _ :: _, [] => false
  end.

Definition ends_with (suffix s : string) : bool :=
  starts (rev (list_ascii_of_string suffix)) (rev (list_ascii_of_string s)).

End Patterns.

(* ================================================================= *)
(** ** Addresses and bounds, without patterns *)

Module Shapes.

Import Regex Patterns.
Local Open Scope list_scope.
Local Open Scope char_scope.

(** [.] or [-] *)
Definition is_separator (c : ascii) : bool :=
  Ascii.eqb c "." || Ascii.eqb c "-".

(** Runs of word characters with single separators between them:
    [after_word] tells whether the code unit before [s] was a word
    character, which is what a separator and the end both need. *)
Fixpoint separated (after_word : bool) (s : word) : bool :=
  match s with
  | [] => after_word
  | c :: r =>
      if is_word c then separated true r
      else is_separator c && after_word && separated false r
  end.

Definition dotted (s : string) : bool :=
  separated false (list_ascii_of_string s).

Definition all_word (s : string) : bool :=
  forallb is_word (list_ascii_of_string s).

(** One group of the repetition: [[.-]?\w+] *)
Definition group : regex := Cat (Opt separator) (Plus word_char).

End Shapes.





(* ================================================================= *)
(** ** The matcher decides the denotation *)

Module RegexFacts.

Import Regex.
Local Open Scope list_scope.

Lemma power_nil (L : language) (k : nat) :
  L [] -> power L k [].
Proof.
  intros HL. induction k as [|k IH]; simpl.
  - reflexivity.
  - exists [], []. auto.
Qed.

Lemma power_app (L : language) (j k : nat) (s1 s2 : word) :
  power L j s1 -> power L k s2 -> power L (j + k) (s1 ++ s2).
Proof.
  revert s1. induction j as [|j IH]; simpl; intros s1 H1 H2.
  - subst s1. exact H2.
  - destruct H1 as (a & b & -> & Ha & Hb).
    exists a, (b ++ s2). rewrite app_assoc. auto.
Qed.

Lemma power_one (L : language) (s : word) : L s -> power L 1 s.
Proof.
  intros H. exists s, []. rewrite app_nil_r. simpl. auto.
Qed.

(** A non-empty word of [L^k] starts with a non-empty word of [L]; the
    iterations skipped in front of it were empty, so [L^(k-1)] still holds
    for the rest. *)
Lemma power_cons (L : language) (k : nat) (c : ascii) (s : word) :
  power L k (c :: s) ->
  exists k' s1 s2,
    k = S k' /\ s = s1 ++ s2 /\ L (c :: s1) /\ power L k' s2.
Proof.
  revert s. induction k as [|k IH]; simpl; intros s H.
  - discriminate.
  - destruct H as (a & b & E & Ha & Hb).
    destruct a as [|x a]; simpl in E.
    + subst b. destruct (IH _ Hb) as (k' & s1 & s2 & -> & -> & H1 & H2).
      exists (S k'), s1, s2. repeat split; auto.
      simpl. exists [], s2. auto.
    + injection E as <- ->. exists k, a, b. auto.
Qed.

Lemma nullable_spec (r : regex) : nullable r = true <-> lang r [].
Proof.
  induction r as [| |cs|r1 IH1 r2 IH2|r1 IH1 r2 IH2|r1 IH1 lo hi]; simpl.
  - split; [discriminate | tauto].
  - tauto.
  - split; [discriminate | intros (c & E & _); discriminate].
  - rewrite andb_true_iff, IH1, IH2. split.
    + intros [H1 H2]. exists [], []. auto.
    + intros (s1 & s2 & E & H1 & H2).
      symmetry in E. apply app_eq_nil in E as [-> ->]. auto.
  - rewrite orb_true_iff, IH1, IH2. tauto.
  - rewrite andb_true_iff, orb_true_iff, N.eqb_eq, IH1. split.
    + intros [Hb [-> | Hn]].
      * exists 0%nat. split; [|reflexivity].
        split; [lia|]. destruct hi; [lia | exact I].
      * exists (N.to_nat lo). split.
        -- split; [lia|]. destruct hi as [h|]; simpl in Hb; [|exact I].
           apply N.leb_le in Hb. lia.
        -- apply power_nil, Hn.
    + intros (k & [Hlo Hhi] & Hp). split.
      * destruct hi as [h|]; simpl; [apply N.leb_le; lia | reflexivity].
      * destruct k as [|k]; [left; lia|].
        right. simpl in Hp. destruct Hp as (s1 & s2 & E & H1 & _).
        symmetry in E. apply app_eq_nil in E as [-> _]. exact H1.
Qed.

Lemma cat_spec (r1 r2 : regex) (s : word) :
  lang (cat r1 r2) s <-> lang (Cat r1 r2) s.
Proof.
  unfold cat.
  destruct r1; destruct r2; simpl; try tauto;
    try (split; [tauto | intros (s1 & s2 & _ & H1 & H2); tauto]);
    try (split;
         [ intros H; exists [], s; simpl; auto
         | intros (s1 & s2 & -> & -> & H2); exact H2 ]).
Qed.

Lemma alt_spec (r1 r2 : regex) (s : word) :
  lang (alt r1 r2) s <-> lang (Alt r1 r2) s.
Proof.
  unfold alt. destruct r1; destruct r2; simpl; tauto.
Qed.

Lemma der_spec (r : regex) (c : ascii) (s : word) :
  lang (der c r) s <-> lang r (c :: s).
Proof.
  revert s.
  induction r as [| |cs|r1 IH1 r2 IH2|r1 IH1 r2 IH2|r1 IH1 lo hi];
    intros s; simpl.
  - tauto.
  - split; [tauto | discriminate].
  - destruct (accepts cs c) eqn:A; simpl; split.
    + intros ->. exists c. auto.
    + intros (d & E & _). injection E as _ ->. reflexivity.
    + tauto.
    + intros (d & E & Hd). injection E as <- _. congruence.
  - rewrite alt_spec. simpl. rewrite cat_spec. simpl. split.
    + intros [(s1 & s2 & -> & H1 & H2) | H].
      * exists (c :: s1), s2. rewrite <- IH1. auto.
      * destruct (nullable r1) eqn:N1; [|destruct H].
        exists [], (c :: s). rewrite <- nullable_spec, <- IH2. auto.
    + intros (s1 & s2 & E & H1 & H2). destruct s1 as [|x s1]; simpl in E.
      * subst s2. right. apply nullable_spec in H1. rewrite H1.
        apply IH2, H2.
      * injection E as <- ->. left. exists s1, s2. rewrite IH1. auto.
  - rewrite alt_spec. simpl. rewrite IH1, IH2. tauto.
  - destruct (bounds_ok lo hi && negb (exhausted hi)) eqn:B.
    + apply andb_true_iff in B as [Bo Bx]. apply negb_true_iff in Bx.
      rewrite cat_spec. simpl. split.
      * intros (s1 & s2 & -> & H1 & k & [Hlo Hhi] & Hp).
        exists (S k). split.
        -- split; [lia|]. destruct hi as [h|]; simpl in *; [|exact I].
           apply N.eqb_neq in Bx. lia.
        -- exists (c :: s1), s2. rewrite <- IH1. auto.
      * intros (k & [Hlo Hhi] & Hp).
        destruct (power_cons _ _ _ _ Hp) as (k' & s1 & s2 & -> & -> & H1 & H2).
        exists s1, s2. rewrite IH1. repeat split; auto.
        exists k'. split; [|exact H2].
        split; [lia|]. destruct hi as [h|]; simpl; [lia | exact I].
    + simpl. split; [tauto|].
      intros (k & [Hlo Hhi] & Hp).
      destruct (power_cons _ _ _ _ Hp) as (k' & _ & _ & -> & _).
      apply andb_false_iff in B as [B | B].
      * destruct hi as [h|]; simpl in B; [|discriminate].
        apply N.leb_gt in B. lia.
      * apply negb_false_iff in B. destruct hi as [h|]; simpl in B;
          [|discriminate].
        apply N.eqb_eq in B. lia.
Qed.

Theorem matches_spec (r : regex) (s : word) :
  matches r s = true <-> lang r s.
Proof.
  revert r. induction s as [|c s IH]; intros r; simpl.
  - apply nullable_spec.
  - rewrite IH. apply der_spec.
Qed.

End RegexFacts.

(* ================================================================= *)
(** ** Reading the templates *)

Module ReaderFacts.

Import Regex Reader Patterns RegexFacts.
Local Open Scope list_scope.
Local Open Scope char_scope.

Lemma list_of_append (a b : string) :
  list_ascii_of_string (a ++ b)%string
  = list_ascii_of_string a ++ list_ascii_of_string b.
Proof.
  induction a as [|c a IH]; simpl; [reflexivity | now rewrite IH].
Qed.

Lemma is_alpha_word (c : ascii) : is_alpha c = true -> is_word c = true.
Proof.
  unfold is_word. intros ->. reflexivity.
Qed.


(** A word character is a pattern character, whatever follows it. *)
Lemma next_token_word (c : ascii) (rest : word) :
  is_word c = true -> next_token c rest = (lit c, O).
Proof.
  destruct c as [[] [] [] [] [] [] [] []]; intros H;
    vm_compute in H; try discriminate H; reflexivity.
Qed.

Lemma tokens_word_run (w rest : word) :
  forallb is_word w = true ->
  tokens 0 (w ++ rest) = map lit w ++ tokens 0 rest.
Proof.
  induction w as [|c w IH]; simpl; intros H.
  - reflexivity.
  - apply andb_true_iff in H as [Hc Hw].
    rewrite (next_token_word c _ Hc), (IH Hw). reflexivity.
Qed.

Lemma tokens_skip (a b : word) (k : nat) :
  tokens (length a + k) (a ++ b) = tokens k b.
Proof.
  induction a as [|c a IH]; simpl; [reflexivity | exact IH].
Qed.

Lemma run_app (st : state) (a b : list token) :
  run st (a ++ b) = bind (run st a) (fun st' => run st' b).
Proof.
  revert st. induction a as [|t a IH]; intros st; simpl.
  - reflexivity.
  - destruct (step st t); simpl; auto.
Qed.

Lemma run_lits (w : word) (b : bool) (f : frame) (fs : list frame) :
  run (State b false f fs) (map lit w)
  = Return (State b false (push_lits f w) fs).
Proof.
  revert f. induction w as [|c w IH]; intros f; simpl.
  - reflexivity.
  - apply IH.
Qed.

Lemma flush_push_lits (w : word) (f : frame) (r : regex) :
  flush f = Some r -> flush (push_lits f w) = Some (lits r w).
Proof.
  revert f r. induction w as [|c w IH]; intros f r H; simpl.
  - exact H.
  - apply IH. unfold push, flush at 1. simpl. rewrite H. reflexivity.
Qed.

Lemma lits_app (r : regex) (a b : word) :
  lits r (a ++ b) = lits (lits r a) b.
Proof.
  unfold lits. apply fold_left_app.
Qed.

Lemma close_push_lits (w : word) (f : frame) (r : regex) :
  flush f = Some r -> close (push_lits f w) = lits r w.
Proof.
  intros H. unfold close. now rewrite (flush_push_lits w f r H).
Qed.

(** The template of a domain restriction, read for a label and an
    extension made of word characters. *)
Lemma read_exact_domain (name ext : string) :
  forallb is_word (list_ascii_of_string name) = true ->
  forallb is_word (list_ascii_of_string ext) = true ->
  EMAIL_WITH_DOMAIN_REGEX name ext
  = Return (exact_domain (name ++ "." ++ ext)%string).
Proof.
  intros Hn He.
  unfold EMAIL_WITH_DOMAIN_REGEX, new_RegExp, read, exact_domain.
  rewrite !list_of_append.
  simpl.
  rewrite (tokens_word_run _ _ Hn), run_app, run_lits. simpl.
  rewrite (tokens_word_run _ _ He), run_app, run_lits. simpl.
  unfold finish. simpl. do 2 f_equal.
  erewrite close_push_lits.
  2:{ unfold push, flush at 1. simpl.
      erewrite flush_push_lits; reflexivity. }
  rewrite lits_app. reflexivity.
Qed.

(** **** The braced quantifier of the standard pattern *)

Lemma scan_digits_rendering (d : Decimal.uint) (rest : word) :
  match rest with [] => True | c :: _ => digit c = None end ->
  scan_digits (list_ascii_of_string (NilEmpty.string_of_uint d) ++ rest)
  = (d, length (list_ascii_of_string (NilEmpty.string_of_uint d)), rest).
Proof.
  intros H. induction d; simpl; try (rewrite IHd; reflexivity).
  destruct rest as [|c r]; [reflexivity|]. simpl. now rewrite H.
Qed.

Lemma rendering_positive (p : positive) :
  list_ascii_of_string (JS.number_to_string (JS.Integer (Z.pos p)))
  = decimal p.
Proof.
  unfold decimal. simpl. unfold NilZero.string_of_uint.
  destruct (Pos.to_uint p) eqn:E; try reflexivity.
  exfalso. exact (DecimalPos.Unsigned.to_uint_nonnil p E).
Qed.

Lemma decimal_nonempty (p : positive) : exists n, length (decimal p) = S n.
Proof.
  unfold decimal.
  destruct (Pos.to_uint p) eqn:E; simpl; eauto.
  exfalso. exact (DecimalPos.Unsigned.to_uint_nonnil p E).
Qed.


Lemma scan_brace_bound (p : positive) (rest : word) :
  scan_brace ("2" :: "," :: decimal p ++ "}" :: rest)
  = Some (2%N, Some (N.pos p), length ("2" :: "," :: decimal p ++ ["}"])).
Proof.
  unfold scan_brace. simpl scan_digits at 1. cbv iota beta.
  unfold decimal. rewrite scan_digits_rendering by reflexivity.
  fold (decimal p). destruct (decimal_nonempty p) as [n E].
  unfold N.of_uint. rewrite DecimalPos.Unsigned.of_to.
  simpl. rewrite length_app, E. simpl. do 3 f_equal. lia.
Qed.

Lemma tokens_skip_all (a b : word) :
  tokens (length a) (a ++ b) = tokens 0 b.
Proof.
  rewrite <- (tokens_skip a b 0). f_equal. lia.
Qed.

Lemma tokens_bound (p : positive) (rest : word) :
  tokens 0 ("{" :: "2" :: "," :: decimal p ++ "}" :: rest)
  = if (2 <=? N.pos p)%N
    then TQuant 2 (Some (N.pos p)) :: tokens 0 rest
    else TError :: tokens 0 ("2" :: "," :: decimal p ++ "}" :: rest).
Proof.
  change (tokens 0 ("{" :: "2" :: "," :: decimal p ++ "}" :: rest))
    with (let '(t, n) :=
            next_token "{" ("2" :: "," :: decimal p ++ "}" :: rest) in
          t :: tokens n ("2" :: "," :: decimal p ++ "}" :: rest)).
  unfold next_token. rewrite scan_brace_bound. unfold bounds_ok.
  destruct (2 <=? N.pos p)%N; [|reflexivity].
  f_equal.
  replace ("2" :: "," :: decimal p ++ "}" :: rest)
    with (("2" :: "," :: decimal p ++ ["}"]) ++ rest)
    by (simpl; now rewrite <- app_assoc).
  apply tokens_skip_all.
Qed.

Lemma tokens_stem (rest : word) :
  tokens 0 (list_ascii_of_string stem_source ++ rest)
  = stem_tokens ++ tokens 0 rest.
Proof. reflexivity. Qed.

Lemma run_stem : run initial stem_tokens = Return stem_state.
Proof. vm_compute. reflexivity. Qed.

(** The standard pattern with a positive integer bound: a counted
    repetition from 2, unless the bound is 1, which is an early error. *)
Lemma read_standard (p : positive) :
  new_RegExp (standard_source (JS.number_to_string (JS.Integer (Z.pos p))))
  = if (2 <=? N.pos p)%N then Return (standard (N.pos p))
    else Throw SyntaxError.
Proof.
  unfold standard_source, new_RegExp, read.
  change "^\w+([.-]?\w+)*@\w+([.-]?\w+)*(\.\w{2,"%string
    with (stem_source ++ "{2,")%string.
  rewrite !list_of_append, rendering_positive, <- !app_assoc.
  rewrite tokens_stem, run_app, run_stem.
  change (list_ascii_of_string "{2," ++ decimal p
          ++ list_ascii_of_string "})+$")
    with ("{" :: "2" :: "," :: decimal p
          ++ "}" :: list_ascii_of_string ")+$").
  rewrite tokens_bound.
  destruct (2 <=? N.pos p)%N; reflexivity.
Qed.




End ReaderFacts.

(* ================================================================= *)
(** ** What the patterns accept *)

Module PatternFacts.

Import Regex Reader Patterns RegexFacts ReaderFacts.
Local Open Scope list_scope.
Local Open Scope char_scope.

Lemma string_of_append (a b : word) :
  string_of_list_ascii (a ++ b)
  = (string_of_list_ascii a ++ string_of_list_ascii b)%string.
Proof.
  induction a as [|c a IH]; simpl; [reflexivity | now rewrite IH].
Qed.

Lemma list_of_inj (a b : string) :
  list_ascii_of_string a = list_ascii_of_string b -> a = b.
Proof.
  intros H. rewrite <- (string_of_list_ascii_of_string a),
    <- (string_of_list_ascii_of_string b). now rewrite H.
Qed.

Lemma length_string_of (l : word) :
  String.length (string_of_list_ascii l) = length l.
Proof.
  induction l as [|c l IH]; simpl; [reflexivity | now rewrite IH].
Qed.

(** A pattern tied to both ends accepts exactly the words of its body. *)
Lemma test_anchored (r : regex) (s : word) :
  test_word (MkRegExp true r true) s = true <-> lang r s.
Proof.
  unfold test_word, search_form. rewrite matches_spec. simpl. split.
  - intros (s1 & s2 & -> & -> & s3 & s4 & -> & H & ->).
    simpl. now rewrite app_nil_r.
  - intros H. exists [], s. repeat split; auto.
    exists s, []. rewrite app_nil_r. auto.
Qed.

Lemma lang_lits (r : regex) (w s : word) :
  lang (lits r w) s <-> exists s1, s = s1 ++ w /\ lang r s1.
Proof.
  revert r s. induction w as [|c w IH]; intros r s; simpl.
  - split.
    + intros H. exists s. now rewrite app_nil_r.
    + intros (s1 & -> & H). now rewrite app_nil_r.
  - change (fold_left _ w (Cat r (Chr (CLit c))))
      with (lits (Cat r (Chr (CLit c))) w).
    rewrite IH. simpl. split.
    + intros (s1 & -> & a & b & -> & Ha & d & -> & Hd).
      apply Ascii.eqb_eq in Hd. subst d.
      exists a. rewrite <- app_assoc. auto.
    + intros (s1 & -> & H). exists (s1 ++ [c]).
      rewrite <- app_assoc. split; [reflexivity|].
      exists s1, [c]. repeat split; auto.
      exists c. split; [reflexivity | apply Ascii.eqb_refl].
Qed.

(** Repetitions of a single character set. *)
Lemma power_chr (cs : charset) (k : nat) (s : word) :
  power (lang (Chr cs)) k s
  <-> length s = k /\ forallb (accepts cs) s = true.
Proof.
  revert s. induction k as [|k IH]; intros s; simpl.
  - split.
    + intros ->. auto.
    + intros [H _]. now apply length_zero_iff_nil.
  - split.
    + intros (s1 & s2 & -> & (c & -> & Hc) & H2).
      apply IH in H2 as [<- H2]. simpl. rewrite Hc, H2. auto.
    + intros [Hl Hf]. destruct s as [|c s]; [discriminate|].
      simpl in Hl, Hf. apply andb_true_iff in Hf as [Hc Hs].
      exists [c], s. repeat split; eauto.
      apply IH. split; [congruence | assumption].
Qed.

Lemma lang_rep_chr (cs : charset) (lo : N) (hi : option N) (s : word) :
  lang (Rep (Chr cs) lo hi) s
  <-> within lo hi (length s) /\ forallb (accepts cs) s = true.
Proof.
  simpl. split.
  - intros (k & Hk & Hp). apply power_chr in Hp as [<- Hf]. auto.
  - intros [Hw Hf]. exists (length s). split; [assumption|].
    apply power_chr. auto.
Qed.

Lemma accepts_alpha (c : ascii) :
  accepts (CClass false [("a", "z"); ("A", "Z")]) c = is_alpha c.
Proof.
  unfold accepts, is_alpha. simpl. now rewrite orb_false_r.
Qed.

Lemma forallb_ext_in (f g : ascii -> bool) (s : word) :
  (forall c, f c = g c) -> forallb f s = forallb g s.
Proof.
  intros H. induction s as [|c s IH]; simpl; [reflexivity|].
  now rewrite H, IH.
Qed.

Lemma read_DOMAIN_REGEX : new_RegExp DOMAIN_REGEX_source = Return DOMAIN_REGEX.
Proof. vm_compute. reflexivity. Qed.

(** The domain format: a label of word characters, one dot, and two or
    more letters. *)
Lemma DOMAIN_REGEX_accepts (d : word) :
  test_word DOMAIN_REGEX d = true
  <-> exists label tld,
        d = label ++ "." :: tld
        /\ label <> [] /\ forallb is_word label = true
        /\ (2 <= length tld)%nat /\ forallb is_alpha tld = true.
Proof.
  unfold DOMAIN_REGEX. rewrite test_anchored.
  change (lang (Cat ?a ?b) d)
    with (exists s1 s2, d = s1 ++ s2 /\ lang a s1 /\ lang b s2).
  split.
  - intros (s12 & tld & -> & (label & dot & -> & Hl & (c & -> & Hc)) & Ht).
    apply lang_rep_chr in Hl as [[Hlo _] Hl], Ht as [[Hto _] Ht].
    apply Ascii.eqb_eq in Hc. subst c.
    exists label, tld. rewrite <- app_assoc. repeat split; auto.
    + intros ->. simpl in Hlo. lia.
    + lia.
    + now rewrite <- (forallb_ext_in _ _ tld accepts_alpha).
  - intros (label & tld & -> & Hne & Hl & Hlen & Ht).
    exists (label ++ ["."]), tld. rewrite <- app_assoc.
    split; [reflexivity|]. split.
    + exists label, ["."]. split; [reflexivity|]. split.
      * apply lang_rep_chr. split; [|exact Hl].
        split; [|exact I]. destruct label; [congruence | simpl; lia].
      * exists ".". auto.
    + apply lang_rep_chr. split.
      * split; [lia | exact I].
      * now rewrite (forallb_ext_in _ _ tld accepts_alpha).
Qed.

(** **** Splitting a well-formed domain *)

Lemma split_free (sep : ascii) (s : string) :
  free_of sep s = true -> JS.split sep s = [s].
Proof.
  unfold free_of. induction s as [|c s IH]; simpl; intros H.
  - reflexivity.
  - apply andb_true_iff in H as [Hc Hs]. apply negb_true_iff in Hc.
    rewrite Hc, (IH Hs). reflexivity.
Qed.

Lemma split_at (sep : ascii) (a b : string) :
  free_of sep a = true ->
  JS.split sep (a ++ String sep b)%string = a :: JS.split sep b.
Proof.
  unfold free_of. induction a as [|c a IH]; simpl; intros H.
  - now rewrite Ascii.eqb_refl.
  - apply andb_true_iff in H as [Hc Ha]. apply negb_true_iff in Hc.
    rewrite Hc, (IH Ha). reflexivity.
Qed.

Lemma word_not_dot (c : ascii) :
  is_word c = true -> negb (Ascii.eqb c ".") = true.
Proof.
  destruct c as [[] [] [] [] [] [] [] []]; intros H;
    vm_compute in H; try discriminate H; reflexivity.
Qed.

Lemma words_free_of_dot (s : string) :
  forallb is_word (list_ascii_of_string s) = true -> free_of "." s = true.
Proof.
  unfold free_of. induction (list_ascii_of_string s) as [|c l IH]; simpl.
  - reflexivity.
  - intros H. apply andb_true_iff in H as [Hc Hl].
    now rewrite (word_not_dot c Hc), (IH Hl).
Qed.

Lemma alpha_words (s : word) :
  forallb is_alpha s = true -> forallb is_word s = true.
Proof.
  induction s as [|c s IH]; simpl; [reflexivity|].
  intros H. apply andb_true_iff in H as [Hc Hs].
  now rewrite (is_alpha_word c Hc), (IH Hs).
Qed.

(** A domain that passes the format test is [label.tld], and that is how
    [split] cuts it. *)
Lemma valid_domain_parts (d : string) :
  test DOMAIN_REGEX d = true ->
  exists label tld : string,
    d = (label ++ "." ++ tld)%string
    /\ label <> ""%string
    /\ forallb is_word (list_ascii_of_string label) = true
    /\ (2 <= String.length tld)%nat
    /\ forallb is_alpha (list_ascii_of_string tld) = true
    /\ JS.split "." d = [label; tld].
Proof.
  unfold test. intros H.
  apply DOMAIN_REGEX_accepts in H
    as (label & tld & E & Hne & Hl & Hlen & Ht).
  exists (string_of_list_ascii label), (string_of_list_ascii tld).
  rewrite !list_ascii_of_string_of_list_ascii.
  assert (Ed : d = (string_of_list_ascii label ++ "."
                    ++ string_of_list_ascii tld)%string).
  { apply list_of_inj. rewrite E, !list_of_append.
    now rewrite !list_ascii_of_string_of_list_ascii. }
  repeat split; auto.
  - intros E0. apply Hne.
    rewrite <- (list_ascii_of_string_of_list_ascii label), E0. reflexivity.
  - now rewrite length_string_of.
  - rewrite Ed. simpl. rewrite split_at, split_free; auto.
    + apply words_free_of_dot.
      rewrite list_ascii_of_string_of_list_ascii. now apply alpha_words.
    + apply words_free_of_dot.
      now rewrite list_ascii_of_string_of_list_ascii.
Qed.

(** For a well-formed domain the template reads as the exact-match
    pattern of that domain. *)
Lemma read_valid_domain (d : string) :
  test DOMAIN_REGEX d = true ->
  EMAIL_WITH_DOMAIN_REGEX (JS.element 0 (JS.split "." d))
                          (JS.element 1 (JS.split "." d))
  = Return (exact_domain d).
Proof.
  intros H.
  destruct (valid_domain_parts d H)
    as (label & tld & -> & _ & Hl & _ & Ht & ->).
  simpl. apply read_exact_domain; [exact Hl | now apply alpha_words].
Qed.

(** The exact-match pattern accepts a local part, [@] and the domain. *)
Lemma test_exact_domain (d email : string) :
  test (exact_domain d) email = true
  <-> exists local : string,
        email = (local ++ "@" ++ d)%string
        /\ test local_part local = true.
Proof.
  unfold test, exact_domain, local_part.
  rewrite test_anchored, lang_lits. split.
  - intros (s1 & E & H1). exists (string_of_list_ascii s1). split.
    + apply list_of_inj.
      now rewrite E, (list_of_append (string_of_list_ascii s1)),
        list_ascii_of_string_of_list_ascii.
    + apply test_anchored.
      now rewrite list_ascii_of_string_of_list_ascii.
  - intros (local & -> & H). apply test_anchored in H.
    exists (list_ascii_of_string local).
    split; [apply list_of_append | exact H].
Qed.

(** **** The standard pattern *)

Lemma read_narrow :
  new_RegExp narrow_source
  = Return (MkRegExp true
              (Cat (Cat address_stem (Chr (CLit ".")))
                   (Rep word_char 2 (Some 3%N)))
              true).
Proof. vm_compute. reflexivity. Qed.

(** One extension of two or three word characters is among the one or
    more that the standard pattern with the default bound allows. *)
Lemma narrow_within_standard (e : string) :
  matches_pattern narrow_source e -> test (standard 3) e = true.
Proof.
  intros (re & Hre & Ht). rewrite read_narrow in Hre.
  injection Hre as <-. unfold test in *. unfold standard.
  apply test_anchored in Ht. apply test_anchored.
  destruct Ht as (s12 & s3 & -> & (s1 & s2 & -> & H1 & H2) & H3).
  exists s1, (s2 ++ s3). rewrite app_assoc. repeat split; auto.
  exists 1%nat. split.
  - split; [reflexivity | exact I].
  - apply power_one. exists s2, s3. auto.
Qed.

End PatternFacts.

(* ================================================================= *)
(** ** Facts stated on strings *)

Module StringFacts.

Import Regex Reader Patterns RegexFacts ReaderFacts PatternFacts.

(** The format of a domain, on strings. *)
Lemma DOMAIN_REGEX_format (d : string) :
  test DOMAIN_REGEX d = true
  <-> exists label tld : string,
        d = label ++ "." ++ tld
        /\ label <> ""
        /\ forallb is_word (list_ascii_of_string label) = true
        /\ (2 <= String.length tld)%nat
        /\ forallb is_alpha (list_ascii_of_string tld) = true.
Proof.
  split.
  - intros H.
    destruct (valid_domain_parts d H) as (label & tld & E & H1 & H2 & H3 & H4 & _).
    exists label, tld. auto.
  - intros (label & tld & -> & Hne & Hl & Hlen & Ht).
    unfold test. apply DOMAIN_REGEX_accepts.
    exists (list_ascii_of_string label), (list_ascii_of_string tld).
    rewrite list_of_append. repeat split; auto.
    + destruct label; [congruence | discriminate].
    + rewrite <- (string_of_list_ascii_of_string tld) in Hlen.
      now rewrite length_string_of in Hlen.
Qed.


(** **** Endings of texts *)

Lemma starts_app (p s : word) : starts p (p ++ s)%list = true.
Proof.
  induction p as [|c p IH]; simpl; [reflexivity|].
  now rewrite Ascii.eqb_refl, IH.
Qed.

Lemma append_ends_with (a b : string) : ends_with b (a ++ b)%string = true.
Proof.
  unfold ends_with. rewrite list_of_append, rev_app_distr.
  apply starts_app.
Qed.

(** Two texts with different endings differ, whatever comes before. *)
Lemma different_ending (a suffix other : string) :
  ends_with suffix other = false -> (a ++ suffix)%string <> other.
Proof.
  intros H E. rewrite <- E, append_ends_with in H. discriminate.
Qed.

End StringFacts.

(* ================================================================= *)
(** ** The branches of [checkEmail] *)

Module CheckEmailFacts.

Import Regex Reader Patterns RegexFacts ReaderFacts PatternFacts StringFacts.

#[local] Arguments new_RegExp : simpl never.
#[local] Arguments test : simpl never.
#[local] Arguments EMAIL_WITH_DOMAIN_REGEX : simpl never.
#[local] Arguments String.eqb : simpl never.

Lemma truthy_default (m : value) : truthy (default_to VNull m) = truthy m.
Proof. destruct m; reflexivity. Qed.

Lemma is_number_default (m : value) :
  is_number (default_to VNull m) = is_number m.
Proof. destruct m; reflexivity. Qed.

Lemma bound_default (m : value) :
  to_string (or_else (default_to VNull m) (VNumber (Integer 3)))
  = tld_bound m.
Proof.
  unfold or_else, tld_bound. rewrite truthy_default.
  destruct m; cbn [default_to]; try reflexivity;
    match goal with |- context [truthy ?v] => destruct (truthy v) end;
    reflexivity.
Qed.

Ltac enter :=
  unfold checkEmail; cbv zeta; cbn [domains max];
  rewrite ?truthy_default, ?is_number_default, ?bound_default.

Lemma guard_passed (m : value) :
  passes_max_guard m -> truthy m && negb (is_number m) = false.
Proof.
  intros [H | H]; rewrite H; [reflexivity | apply andb_false_r].
Qed.

Lemma checkEmail_bad_max (email : string) (d m : value) :
  truthy m = true -> is_number m = false ->
  checkEmail email (Options d m) = Return max_type_error.
Proof.
  intros Ht Hn. enter. rewrite Ht, Hn. reflexivity.
Qed.

Lemma checkEmail_unrestricted (email : string) (d m : value) :
  negb (truthy d) || is_empty_array d = true ->
  passes_max_guard m ->
  checkEmail email (Options d m)
  = bind (new_RegExp (standard_source (tld_bound m)))
      (fun re => Return (getResponse (test re email) (Some email) None)).
Proof.
  intros Hd Hm. enter. rewrite (guard_passed m Hm), Hd. reflexivity.
Qed.

(** Past the two checks on [max], with a restriction in [domains]. *)
Lemma checkEmail_restricted (email : string) (d m : value) :
  negb (truthy d) || is_empty_array d = false ->
  truthy m = false ->
  checkEmail email (Options d m)
  = match shape d with
    | OneString emailDomain | Strings [emailDomain] =>
        if negb (test DOMAIN_REGEX emailDomain) then
          Return (getResponse false (Some email)
                    (Some ("`" ++ to_string d ++ "` is not a valid domain.")))
        else
          bind (EMAIL_WITH_DOMAIN_REGEX
                  (element 0 (split "." emailDomain))
                  (element 1 (split "." emailDomain)))
            (fun re =>
               Return (getResponse (test re email) (Some email) None))
    | Strings list =>
        if string_truthy (error (validateDomains list)) then
          Return (getResponse false (Some email)
                    (error (validateDomains list)))
        else
          bind (matchDomains email list)
            (fun isValid =>
               Return (getResponse isValid (Some email) None))
    | Neither => Return domains_type_error
    end.
Proof.
  intros Hd Hm. enter. rewrite Hm, Hd. cbn [andb].
  unfold isStringOrArray. destruct (shape d); reflexivity.
Qed.

Lemma checkEmail_max_with_domains (email : string) (d m : value) :
  negb (truthy d) || is_empty_array d = false ->
  isStringOrArray d = true ->
  truthy m = true -> is_number m = true ->
  checkEmail email (Options d m) = Return max_with_domains_error.
Proof.
  intros Hd Hs Ht Hn. enter. rewrite Ht, Hn, Hd, Hs. reflexivity.
Qed.

Lemma shape_strings (l : list string) : shape (strings l) = Strings l.
Proof.
  unfold shape, strings.
  assert (H : forallb is_string (map VString l) = true)
    by (induction l; simpl; auto).
  rewrite H. f_equal. induction l as [|x l IH]; simpl; [|rewrite IH]; auto.
Qed.

Lemma strings_restrict (l : list string) :
  l <> [] -> negb (truthy (strings l)) || is_empty_array (strings l) = false.
Proof.
  destruct l; [congruence | reflexivity].
Qed.

Lemma string_restricts (d : string) :
  d <> "" -> negb (truthy (VString d)) || is_empty_array (VString d) = false.
Proof.
  intros H. cbn [truthy is_empty_array].
  destruct (String.eqb_spec d ""); [contradiction | reflexivity].
Qed.

(** Every domain of a list passes the format test: reading the template
    of each one succeeds, and the loop finds whether one of them is the
    domain of the address. *)
Lemma matchDomains_valid (email : string) (l : list string) :
  forallb (test DOMAIN_REGEX) l = true ->
  matchDomains email l
  = Return (existsb (fun d => test (exact_domain d) email) l).
Proof.
  induction l as [|d l IH]; intros H.
  - reflexivity.
  - cbn [forallb] in H. apply andb_true_iff in H as [Hd Hl].
    cbn [matchDomains existsb]. cbv zeta.
    rewrite (read_valid_domain d Hd). cbn [bind].
    destruct (test (exact_domain d) email); [reflexivity | exact (IH Hl)].
Qed.

Lemma offending_nil (l : list string) :
  offending l = [] <-> forallb (test DOMAIN_REGEX) l = true.
Proof.
  unfold offending. induction l as [|d l IH]; cbn [filter forallb].
  - tauto.
  - destruct (test DOMAIN_REGEX d); cbn [negb andb].
    + exact IH.
    + split; discriminate.
Qed.

Lemma validateDomains_result (l : list string) :
  validateDomains l
  = match offending l with
    | [] => Result true None
    | bad => Result false
               (Some ("[" ++ String.concat ", " bad
                      ++ "] are not valid domains."))
    end.
Proof.
  unfold validateDomains. fold (offending l).
  destruct (offending l) as [|b bad]; reflexivity.
Qed.

Lemma append_nonempty (a b : string) : b <> "" -> (a ++ b) <> "".
Proof.
  intros Hb H. destruct a; simpl in H; [contradiction | discriminate].
Qed.

Lemma string_truthy_some (e : string) :
  e <> "" -> string_truthy (Some e) = true.
Proof.
  intros H. cbn [string_truthy].
  destruct (String.eqb_spec e ""); [contradiction | reflexivity].
Qed.

(** What [getResponse] builds. *)
Lemma getResponse_valid (email err : option string) :
  getResponse true email err = Result true None.
Proof. reflexivity. Qed.

Lemma getResponse_generic (email : string) :
  getResponse false (Some email) None = not_a_valid_email email.
Proof. reflexivity. Qed.

Lemma getResponse_message (email : option string) (e : string) :
  e <> "" -> getResponse false email (Some e) = Result false (Some e).
Proof.
  intros H. unfold getResponse. rewrite (string_truthy_some e H).
  reflexivity.
Qed.

Lemma getResponse_shape (v : bool) (email err : option string) :
  (valid (getResponse v email err) = true ->
   error (getResponse v email err) = None)
  /\ (valid (getResponse v email err) = false ->
      exists msg, error (getResponse v email err) = Some msg /\ msg <> "").
Proof.
  destruct v.
  - split; [reflexivity | discriminate].
  - split; [discriminate|]. intros _. unfold getResponse. cbn [negb error].
    eexists. split; [reflexivity|].
    destruct err as [e|].
    + cbn [string_truthy]. destruct (String.eqb_spec e ""); cbn [negb].
      * now apply append_nonempty.
      * assumption.
    + now apply append_nonempty.
Qed.

(** Every value that [checkEmail] returns was built by [getResponse]. *)
Ltac built :=
  match goal with
  | |- Return (getResponse ?v ?e ?err) = Return _ -> _ =>
      let H := fresh in
      intros H; exists v, e, err; injection H; intros <-; reflexivity
  end.

Lemma checkEmail_through_getResponse
    (email : string) (opts : CheckEmailOptions) (r : ValidationResult) :
  checkEmail email opts = Return r ->
  exists v e err, r = getResponse v e err.
Proof.
  destruct opts as [d m]. enter. unfold domains_type_error.
  destruct (truthy m && negb (is_number m)); [built|].
  destruct (negb (truthy d) || is_empty_array d).
  { destruct (new_RegExp _); cbn [bind]; try discriminate. built. }
  destruct (negb (isStringOrArray d)); [built|].
  destruct (truthy m); [built|].
  assert (single : forall s,
    (if negb (test DOMAIN_REGEX s)
     then Return (getResponse false (Some email)
                    (Some ("`" ++ to_string d ++ "` is not a valid domain.")))
     else bind (EMAIL_WITH_DOMAIN_REGEX (element 0 (split "." s))
                                        (element 1 (split "." s)))
            (fun re => Return (getResponse (test re email) (Some email) None)))
    = Return r -> exists v e err, r = getResponse v e err).
  { intros s. destruct (negb (test DOMAIN_REGEX s)); [built|].
    destruct (EMAIL_WITH_DOMAIN_REGEX _ _); cbn [bind]; try discriminate.
    built. }
  assert (multi : forall l,
    (if string_truthy (error (validateDomains l))
     then Return (getResponse false (Some email) (error (validateDomains l)))
     else bind (matchDomains email l)
            (fun isValid => Return (getResponse isValid (Some email) None)))
    = Return r -> exists v e err, r = getResponse v e err).
  { intros l. destruct (string_truthy _); [built|].
    destruct (matchDomains email l); cbn [bind]; try discriminate. built. }
  destruct (shape d) as [s|l|].
  - apply single.
  - destruct l as [|s [|s' l]]; [apply multi | apply single | apply multi].
  - built.
Qed.

Lemma unrestricted_test (d : value) :
  absent_or_empty d -> negb (truthy d) || is_empty_array d = true.
Proof.
  intros [-> | ->]; reflexivity.
Qed.

(** Without a restriction and with a falsy [max] the bound is 3. *)
Lemma checkEmail_default_bound (email : string) (d m : value) :
  negb (truthy d) || is_empty_array d = true ->
  truthy m = false ->
  checkEmail email (Options d m)
  = Return (getResponse (test (standard 3) email) (Some email) None).
Proof.
  intros Hd Hm.
  rewrite checkEmail_unrestricted; [| exact Hd | now left].
  unfold tld_bound. rewrite Hm.
  change "3" with (number_to_string (Integer (Z.pos 3))).
  rewrite read_standard. reflexivity.
Qed.

(** The loop stops at the first domain that matches: what follows it in
    the list is not looked at. *)
Lemma matchDomains_first_match
    (email : string) (before after : list string) (d : string) :
  forallb (test DOMAIN_REGEX) before = true ->
  test DOMAIN_REGEX d = true ->
  test (exact_domain d) email = true ->
  matchDomains email (before ++ d :: after) = Return true.
Proof.
  intros Hb Hd Hm. induction before as [|b before IH].
  - cbn [app matchDomains]. cbv zeta.
    rewrite (read_valid_domain d Hd). cbn [bind]. now rewrite Hm.
  - cbn [forallb] in Hb. apply andb_true_iff in Hb as [Hb1 Hb2].
    cbn [app matchDomains]. cbv zeta.
    rewrite (read_valid_domain b Hb1). cbn [bind].
    destruct (test (exact_domain b) email); [reflexivity | exact (IH Hb2)].
Qed.

(** Results that [checkEmail] can return when [max] is falsy. *)
Lemma falsy_max_results
    (email : string) (d m : value) (r : ValidationResult) :
  truthy m = false ->
  checkEmail email (Options d m) = Return r ->
  r = Result true None
  \/ r = not_a_valid_email email
  \/ r = domains_type_error
  \/ (exists x, r = Result false (Some (x ++ "` is not a valid domain.")))
  \/ (exists x, r = Result false (Some ("[" ++ x))).
Proof.
  intros Hm.
  assert (G : forall b, getResponse b (Some email) None = Result true None
                        \/ getResponse b (Some email) None
                           = not_a_valid_email email)
    by (intros []; [left | right]; reflexivity).
  destruct (negb (truthy d) || is_empty_array d) eqn:Hd.
  - rewrite checkEmail_unrestricted; [| exact Hd | now left].
    destruct (new_RegExp _); cbn [bind]; try discriminate.
    intros [= <-]. destruct (G (test a email)) as [-> | ->]; auto.
  - rewrite checkEmail_restricted; [| exact Hd | exact Hm].
    assert (single : forall s,
      (if negb (test DOMAIN_REGEX s)
       then Return (getResponse false (Some email)
                      (Some ("`" ++ to_string d
                             ++ "` is not a valid domain.")))
       else bind (EMAIL_WITH_DOMAIN_REGEX (element 0 (split "." s))
                                          (element 1 (split "." s)))
              (fun re =>
                 Return (getResponse (test re email) (Some email) None)))
      = Return r ->
      r = Result true None
      \/ r = not_a_valid_email email
      \/ r = domains_type_error
      \/ (exists x, r = Result false (Some (x ++ "` is not a valid domain.")))
      \/ (exists x, r = Result false (Some ("[" ++ x)))).
    { intros s. destruct (negb (test DOMAIN_REGEX s)).
      - rewrite getResponse_message by (cbn [append]; discriminate).
        intros [= <-]. right. right. right. left.
        exists ("`" ++ to_string d). reflexivity.
      - destruct (EMAIL_WITH_DOMAIN_REGEX _ _); cbn [bind];
          try discriminate.
        intros [= <-]. destruct (G (test a email)) as [-> | ->]; auto. }
    assert (multi : forall l,
      (if string_truthy (error (validateDomains l))
       then Return (getResponse false (Some email)
                      (error (validateDomains l)))
       else bind (matchDomains email l)
              (fun isValid =>
                 Return (getResponse isValid (Some email) None)))
      = Return r ->
      r = Result true None
      \/ r = not_a_valid_email email
      \/ r = domains_type_error
      \/ (exists x, r = Result false (Some (x ++ "` is not a valid domain.")))
      \/ (exists x, r = Result false (Some ("[" ++ x)))).
    { intros l. rewrite validateDomains_result.
      destruct (offending l) as [|x bad]; cbn [error].
      - cbn [string_truthy].
        destruct (matchDomains email l); cbn [bind]; try discriminate.
        intros [= <-]. destruct (G a) as [-> | ->]; auto.
      - rewrite string_truthy_some by discriminate.
        rewrite getResponse_message by discriminate.
        intros [= <-]. right. right. right. right.
        eexists. reflexivity. }
    destruct (shape d) as [s|l|].
    + apply single.
    + destruct l as [|s [|s' l]]; [apply multi | apply single | apply multi].
    + intros [= <-]. auto.
Qed.



End CheckEmailFacts.

(* ================================================================= *)
(** ** The properties of the specification *)

Section Properties.

Import Regex Reader Patterns RegexFacts ReaderFacts PatternFacts StringFacts.
Import CheckEmailFacts.

#[local] Arguments new_RegExp : simpl never.
#[local] Arguments test : simpl never.
#[local] Arguments EMAIL_WITH_DOMAIN_REGEX : simpl never.

(** C1.  With [max = 1] and no domain restriction ([domains] absent or
    an empty list) the standard pattern gets the quantifier [{2,1}],
    whose bounds are out of order: building the pattern throws a
    SyntaxError and [checkEmail] returns no [ValidationResult], whatever
    the address. *)
Theorem checkEmail_max_one_throws (email : string) :
  checkEmail email (Options VUndefined (VNumber (Integer 1)))
  = Throw SyntaxError
  /\ checkEmail email (Options (VArray []) (VNumber (Integer 1)))
     = Throw SyntaxError.
Proof.
  split;
    (rewrite checkEmail_unrestricted;
       [| reflexivity | right; reflexivity];
     change (tld_bound (VNumber (Integer 1)))
       with (number_to_string (Integer (Z.pos 1)));
     rewrite read_standard; reflexivity).
Qed.

(** C2, as stated, fails: a [max] of 0 supplied with a domain restriction
    is ignored and the address is matched against the domain. *)
Lemma zero_max_with_domains_accepted :
  checkEmail "test@example.com"
    (Options (VString "example.com") (VNumber (Integer 0)))
  = Return (Result true None)
  /\ checkEmail "test@example.com"
       (Options (VString "example.com") (VNumber (Integer 0)))
     <> Return max_with_domains_error.
Proof.
  assert (E : checkEmail "test@example.com"
                (Options (VString "example.com") (VNumber (Integer 0)))
              = Return (Result true None)) by (vm_compute; reflexivity).
  split; [exact E | rewrite E; discriminate].
Qed.

(** C2, amended.  When [domains] is a non-empty string or a non-empty
    list of strings and [max] is a truthy number, [checkEmail] returns
    the mutual-exclusion error, whatever the address. *)
Theorem max_with_domains_rejected
    (email : string) (opts : CheckEmailOptions) :
  ((exists d, domains opts = VString d /\ d <> "")
   \/ (exists l, domains opts = strings l /\ l <> [])) ->
  is_number (max opts) = true ->
  truthy (max opts) = true ->
  checkEmail email opts = Return max_with_domains_error.
Proof.
  destruct opts as [d m]. cbn [domains max]. intros Hd Hn Ht.
  apply checkEmail_max_with_domains; auto.
  - destruct Hd as [(s & -> & Hs) | (l & -> & Hl)].
    + now apply string_restricts.
    + now apply strings_restrict.
  - unfold isStringOrArray.
    destruct Hd as [(s & -> & Hs) | (l & -> & Hl)].
    + reflexivity.
    + now rewrite shape_strings.
Qed.

Lemma max_with_domains_rejected_witness :
  checkEmail "bad-email" (Options (VString "example.com") (VNumber (Integer 3)))
  = Return max_with_domains_error.
Proof.
  apply (max_with_domains_rejected "bad-email"
           (Options (VString "example.com") (VNumber (Integer 3)))).
  - left. exists "example.com". split; [reflexivity | discriminate].
  - reflexivity.
  - reflexivity.
Defined.

(** C3, as stated, fails: a [max] that is provided, is not a number and
    is falsy (here the empty string) passes the type guard. *)
Lemma empty_string_max_passes_guard :
  checkEmail "a@b.co" (Options VUndefined (VString ""))
  = Return (Result true None)
  /\ checkEmail "a@b.co" (Options VUndefined (VString ""))
     <> Return max_type_error.
Proof.
  assert (E : checkEmail "a@b.co" (Options VUndefined (VString ""))
              = Return (Result true None)) by (vm_compute; reflexivity).
  split; [exact E | rewrite E; discriminate].
Qed.

(** C3, amended.  When [max] is truthy and not a number, [checkEmail]
    returns the type error at once, whatever the address and whatever
    [domains] holds; so it does for [max: 'three']. *)
Theorem truthy_non_number_max_rejected :
  (forall (email : string) (opts : CheckEmailOptions),
      truthy (max opts) = true ->
      is_number (max opts) = false ->
      checkEmail email opts = Return max_type_error)
  /\ checkEmail "a@b.c" (Options VUndefined (VString "three"))
     = Return (Result false (Some "`max` can only have a value of number.")).
Proof.
  split.
  - intros email [d m]. cbn [max]. apply checkEmail_bad_max.
  - vm_compute. reflexivity.
Qed.

Lemma truthy_non_number_max_rejected_witness :
  checkEmail "x@y.com"
    (Options (strings ["bad_domain!"; "ok.com"]) (VBool true))
  = Return max_type_error.
Proof.
  apply (proj1 truthy_non_number_max_rejected); reflexivity.
Defined.

(** C4.  A result built by [getResponse] carries no error when it is
    valid; when it is not, it carries a non-empty message: the one passed
    in if that is non-empty, otherwise the address (or the token [null]
    when there is none) followed by " is not a valid email.".  Every
    result that [checkEmail] returns has that shape. *)
Theorem result_shape_invariant :
  (forall (v : bool) (email err : option string),
      valid (getResponse v email err) = v
      /\ (v = true -> error (getResponse v email err) = None)
      /\ (v = false ->
          exists msg,
            error (getResponse v email err) = Some msg
            /\ msg <> ""
            /\ msg = match err with
                     | Some e =>
                         if String.eqb e "" then
                           match email with Some a => a | None => "null" end
                           ++ " is not a valid email."
                         else e
                     | None =>
                         match email with Some a => a | None => "null" end
                         ++ " is not a valid email."
                     end))
  /\ (forall (email : string) (opts : CheckEmailOptions)
             (r : ValidationResult),
         checkEmail email opts = Return r ->
         (valid r = true -> error r = None)
         /\ (valid r = false -> exists msg, error r = Some msg /\ msg <> "")).
Proof.
  split.
  - intros v email err. split; [destruct v; reflexivity|]. split.
    + intros ->. reflexivity.
    + intros ->.
      destruct (getResponse_shape false email err) as [_ H].
      destruct (H eq_refl) as (msg & E & Hne).
      exists msg. repeat split; auto.
      unfold getResponse in E. cbn [negb error] in E. injection E as <-.
      destruct err as [e|]; [|destruct email; reflexivity].
      cbn [string_truthy]. destruct (String.eqb e ""); cbn [negb];
        destruct email; reflexivity.
  - intros email opts r H.
    destruct (checkEmail_through_getResponse email opts r H)
      as (v & e & err & ->).
    apply getResponse_shape.
Qed.

Lemma result_shape_invariant_witness :
  (valid (Result false (Some "test@example.info is not a valid email."))
   = true ->
   error (Result false (Some "test@example.info is not a valid email."))
   = None)
  /\ (valid (Result false (Some "test@example.info is not a valid email."))
      = false ->
      exists msg,
        error (Result false (Some "test@example.info is not a valid email."))
        = Some msg /\ msg <> "").
Proof.
  apply (proj2 result_shape_invariant "test@example.info" no_options).
  vm_compute. reflexivity.
Defined.

(** C5.  Without a domain restriction ([domains] absent or an empty
    list) [checkEmail] builds the standard pattern with the text of [max]
    as upper bound when [max] is truthy and with 3 otherwise, and tests
    the address against it.  For an integer bound [L] from 2 on (below
    10^21, where a number renders as its decimal digits), and for the
    default 3, the pattern is the term [standard L].  Hence an address
    that matches the pattern with a single extension of two or three
    characters is valid without options, and test@example.info is valid
    with [max: 4] but not with the default. *)
Theorem unrestricted_mode_standard_pattern :
  (forall (email : string) (opts : CheckEmailOptions),
      absent_or_empty (domains opts) ->
      passes_max_guard (max opts) ->
      checkEmail email opts
      = bind (new_RegExp
                ("^\w+([.-]?\w+)*@\w+([.-]?\w+)*(\.\w{2,"
                 ++ tld_bound (max opts) ++ "})+$"))
          (fun re =>
             Return (getResponse (test re email) (Some email) None)))
  /\ (forall (email : string) (opts : CheckEmailOptions) (L : positive),
         absent_or_empty (domains opts) ->
         max opts = VNumber (Integer (Z.pos L)) ->
         (2 <= Z.pos L < 10 ^ 21)%Z ->
         new_RegExp
           ("^\w+([.-]?\w+)*@\w+([.-]?\w+)*(\.\w{2,"
            ++ tld_bound (max opts) ++ "})+$")
         = Return (standard (N.pos L))
         /\ checkEmail email opts
            = Return (getResponse (test (standard (N.pos L)) email)
                        (Some email) None))
  /\ (forall (email : string) (opts : CheckEmailOptions),
         absent_or_empty (domains opts) ->
         truthy (max opts) = false ->
         checkEmail email opts
         = Return (getResponse (test (standard 3) email)
                     (Some email) None))
  /\ (forall e : string,
         matches_pattern "^\w+([.-]?\w+)*@\w+([.-]?\w+)*\.\w{2,3}$" e ->
         checkEmail e no_options = Return (Result true None))
  /\ checkEmail "test@example.info"
       (Options VUndefined (VNumber (Integer 4)))
     = Return (Result true None)
  /\ checkEmail "test@example.info" no_options
     = Return (Result false
                 (Some "test@example.info is not a valid email.")).
Proof.
  pose proof unrestricted_test as U.
  assert (D : forall email opts,
             absent_or_empty (domains opts) ->
             truthy (max opts) = false ->
             checkEmail email opts
             = Return (getResponse (test (standard 3) email)
                         (Some email) None)).
  { intros email [d m]. cbn [domains max]. intros Hd Hm.
    apply checkEmail_default_bound; auto. }
  split; [|split; [|split; [exact D | split; [|split]]]].
  - intros email [d m]. cbn [domains max]. intros Hd Hm.
    apply checkEmail_unrestricted; auto.
  - intros email [d m] L. cbn [domains max]. intros Hd -> [HL _].
    assert (R : new_RegExp
                  (standard_source
                     (tld_bound (VNumber (Integer (Z.pos L)))))
                = Return (standard (N.pos L))).
    { change (tld_bound (VNumber (Integer (Z.pos L))))
        with (number_to_string (Integer (Z.pos L))).
      rewrite read_standard.
      destruct (N.leb_spec 2 (N.pos L)); [reflexivity | lia]. }
    split; [exact R|].
    rewrite checkEmail_unrestricted; [| now apply U | now right].
    rewrite R. reflexivity.
  - intros e He.
    rewrite (D e no_options); [| now left | reflexivity].
    now rewrite (narrow_within_standard e He).
  - vm_compute. reflexivity.
  - vm_compute. reflexivity.
Qed.

Lemma unrestricted_mode_standard_pattern_witness :
  checkEmail "test@example.com" no_options = Return (Result true None)
  /\ checkEmail "test@example.museum"
       (Options (VArray []) (VNumber (Integer 6)))
     = Return (getResponse (test (standard 6) "test@example.museum")
                 (Some "test@example.museum") None)
  /\ checkEmail "test@example" (Options VUndefined (VBool false))
     = Return (getResponse (test (standard 3) "test@example")
                 (Some "test@example") None).
Proof.
  destruct unrestricted_mode_standard_pattern
    as (_ & Hbound & Hdefault & Hnarrow & _).
  split; [|split].
  - apply Hnarrow.
    exists (MkRegExp true
              (Cat (Cat address_stem (Chr (CLit ".")))
                   (Rep word_char 2 (Some 3%N)))
              true).
    split; vm_compute; reflexivity.
  - apply (Hbound "test@example.museum"
             (Options (VArray []) (VNumber (Integer 6))) 6%positive).
    + right. reflexivity.
    + reflexivity.
    + lia.
  - apply Hdefault; [left; reflexivity | reflexivity].
Defined.

(** C6.  With one domain [d] to restrict to (a non-empty string, or a
    list of that one string) and no truthy [max]: the format test is the
    pattern [^\w+\.[a-zA-Z]{2,}$], passed exactly by a non-empty label of
    word characters, one dot and two or more letters; a domain that fails
    it gives the error that quotes it; one that passes is split at the dot
    into label and extension, the template with those two reads as the
    exact-match pattern of [d], the address is tested against it, and
    that pattern accepts exactly a local part, [@] and [d]. *)
Theorem single_domain_path
    (email : string) (opts : CheckEmailOptions) (d : string) :
  (domains opts = VString d /\ d <> "") \/ domains opts = strings [d] ->
  truthy (max opts) = false ->
  new_RegExp "^\w+\.[a-zA-Z]{2,}$" = Return DOMAIN_REGEX
  /\ (test DOMAIN_REGEX d = true
      <-> exists label tld : string,
            d = label ++ "." ++ tld
            /\ label <> ""
            /\ forallb is_word (list_ascii_of_string label) = true
            /\ (2 <= String.length tld)%nat
            /\ forallb is_alpha (list_ascii_of_string tld) = true)
  /\ (test DOMAIN_REGEX d = false ->
      checkEmail email opts
      = Return (Result false (Some ("`" ++ d ++ "` is not a valid domain."))))
  /\ (test DOMAIN_REGEX d = true ->
      exists label tld : string,
        split "." d = [label; tld]
        /\ d = label ++ "." ++ tld
        /\ new_RegExp ("^\w+([.-]?\w+)*@" ++ label ++ "\." ++ tld ++ "$")
           = Return (exact_domain d)
        /\ checkEmail email opts
           = Return (getResponse (test (exact_domain d) email)
                       (Some email) None))
  /\ new_RegExp "^\w+([.-]?\w+)*$" = Return local_part
  /\ (test (exact_domain d) email = true
      <-> exists local : string,
            email = local ++ "@" ++ d /\ test local_part local = true).
Proof.
  destruct opts as [dv m]. cbn [domains max]. intros Hd Hm.
  assert (E : checkEmail email (Options dv m)
              = if negb (test DOMAIN_REGEX d) then
                  Return (getResponse false (Some email)
                            (Some ("`" ++ d ++ "` is not a valid domain.")))
                else
                  bind (EMAIL_WITH_DOMAIN_REGEX
                          (element 0 (split "." d))
                          (element 1 (split "." d)))
                    (fun re =>
                       Return (getResponse (test re email)
                                 (Some email) None))).
  { destruct Hd as [[-> Hne] | ->].
    - rewrite checkEmail_restricted;
        [reflexivity | now apply string_restricts | exact Hm].
    - rewrite checkEmail_restricted;
        [| now apply strings_restrict | exact Hm].
      rewrite shape_strings. cbn [strings map to_string String.concat].
      reflexivity. }
  split; [exact read_DOMAIN_REGEX|].
  split; [apply DOMAIN_REGEX_format|].
  split; [|split; [|split]].
  - intros Hv. rewrite E, Hv. cbn [negb].
    rewrite getResponse_message; [reflexivity|].
    cbn [append]. discriminate.
  - intros Hv.
    destruct (valid_domain_parts d Hv)
      as (label & tld & Ed & _ & Hl & _ & Ht & Hs).
    exists label, tld. split; [exact Hs|]. split; [exact Ed|].
    pose proof (read_valid_domain d Hv) as R.
    split.
    + rewrite Hs in R. cbn [element nth_error] in R. exact R.
    + rewrite E, Hv, R. reflexivity.
  - vm_compute. reflexivity.
  - apply test_exact_domain.
Qed.

Lemma single_domain_path_witness :
  checkEmail "test@example.com" (Options (VString "example.com") VUndefined)
  = Return (Result true None)
  /\ checkEmail "test@example.com" (Options (strings ["example"]) VNull)
     = Return (Result false (Some "`example` is not a valid domain.")).
Proof.
  split.
  - destruct (single_domain_path "test@example.com"
                (Options (VString "example.com") VUndefined) "example.com")
      as (_ & _ & _ & Hvalid & _).
    + left. split; [reflexivity | discriminate].
    + reflexivity.
    + destruct Hvalid as (label & tld & _ & _ & _ & E);
        [vm_compute; reflexivity|].
      rewrite E. vm_compute. reflexivity.
  - destruct (single_domain_path "test@example.com"
                (Options (strings ["example"]) VNull) "example")
      as (_ & _ & Hinvalid & _).
    + right. reflexivity.
    + reflexivity.
    + apply Hinvalid. vm_compute. reflexivity.
Defined.

(** C7.  With a list of two or more domains and no truthy [max], when
    some domain fails the format test the result is the error that lists
    the offending domains in their order, joined by a comma and a space
    inside square brackets, whatever the address: no address is tested.
    So it is for the list of [bad_domain!] and [ok.com], although
    [ok.com] itself passes the format test. *)
Theorem multi_domain_configuration_checked_first :
  (forall (email : string) (opts : CheckEmailOptions) (l : list string),
      domains opts = strings l ->
      (2 <= length l)%nat ->
      truthy (max opts) = false ->
      offending l <> [] ->
      checkEmail email opts
      = Return (Result false
                  (Some ("[" ++ String.concat ", " (offending l)
                         ++ "] are not valid domains."))))
  /\ checkEmail "x@y.com" (Options (strings ["bad_domain!"; "ok.com"])
                             VUndefined)
     = Return (Result false (Some "[bad_domain!] are not valid domains."))
  /\ test DOMAIN_REGEX "ok.com" = true.
Proof.
  split; [|split; vm_compute; reflexivity].
  intros email [d m] l. cbn [domains max]. intros -> Hlen Hm Hbad.
  rewrite checkEmail_restricted; [| apply strings_restrict | exact Hm].
  2:{ intros ->. simpl in Hlen. lia. }
  rewrite shape_strings.
  destruct l as [|a [|b l]]; [simpl in Hlen; lia | simpl in Hlen; lia |].
  rewrite validateDomains_result.
  destruct (offending (a :: b :: l)) as [|x bad]; [congruence|].
  cbn [error]. rewrite string_truthy_some by discriminate.
  rewrite getResponse_message by discriminate. reflexivity.
Qed.

Lemma multi_domain_configuration_checked_first_witness :
  checkEmail "x@y.com" (Options (strings ["ok.com"; "no"; "yes.org"; "a.b"])
                          VUndefined)
  = Return (Result false (Some "[no, a.b] are not valid domains.")).
Proof.
  apply (proj1 multi_domain_configuration_checked_first "x@y.com"
           (Options (strings ["ok.com"; "no"; "yes.org"; "a.b"]) VUndefined)
           ["ok.com"; "no"; "yes.org"; "a.b"]).
  - reflexivity.
  - simpl. lia.
  - reflexivity.
  - vm_compute. discriminate.
Defined.

(** C8.  With a list of two or more well-formed domains and no truthy
    [max], the address is valid exactly when it is a local part, [@] and
    one of the domains; otherwise the result is the generic error, which
    names the address and no domain.  The loop tries the domains in
    order and returns at the first match, so a domain that does not match
    before one that does changes nothing. *)
Theorem multi_domain_first_match :
  (forall (email : string) (opts : CheckEmailOptions) (l : list string),
      domains opts = strings l ->
      (2 <= length l)%nat ->
      truthy (max opts) = false ->
      offending l = [] ->
      checkEmail email opts
      = Return (if existsb (fun d => test (exact_domain d) email) l
                then Result true None
                else Result false (Some (email ++ " is not a valid email."))))
  /\ (forall (email : string) (before after : list string) (d : string),
         offending before = [] ->
         test DOMAIN_REGEX d = true ->
         test (exact_domain d) email = true ->
         matchDomains email (before ++ d :: after) = Return true)
  /\ (forall d email : string,
         test (exact_domain d) email = true
         <-> exists local : string,
               email = local ++ "@" ++ d /\ test local_part local = true)
  /\ checkEmail "test@example.com"
       (Options (strings ["sample.com"; "example.com"; "test.com"])
          VUndefined)
     = Return (Result true None)
  /\ test (exact_domain "sample.com") "test@example.com" = false
  /\ test (exact_domain "example.com") "test@example.com" = true.
Proof.
  split; [|split; [|split; [|split; [|split]]]].
  4-6: vm_compute; reflexivity.
  - intros email [d m] l. cbn [domains max]. intros -> Hlen Hm Hok.
    rewrite checkEmail_restricted; [| apply strings_restrict | exact Hm].
    2:{ intros ->. simpl in Hlen. lia. }
    rewrite shape_strings.
    destruct l as [|a [|b l]]; [simpl in Hlen; lia | simpl in Hlen; lia |].
    rewrite validateDomains_result, Hok. cbn [error string_truthy].
    rewrite matchDomains_valid by now apply offending_nil.
    cbn [bind]. destruct (existsb _ _); reflexivity.
  - intros email before after d Hb. apply matchDomains_first_match.
    now apply offending_nil.
  - intros d email. apply test_exact_domain.
Qed.

Lemma multi_domain_first_match_witness :
  checkEmail "test@test.com"
    (Options (strings ["sample.com"; "example.com"; "test.com"]) VUndefined)
  = Return (Result true None)
  /\ matchDomains "test@example.com" ["sample.com"; "example.com"; "@@@"]
     = Return true.
Proof.
  split.
  - rewrite (proj1 multi_domain_first_match "test@test.com"
               (Options (strings ["sample.com"; "example.com"; "test.com"])
                  VUndefined)
               ["sample.com"; "example.com"; "test.com"]).
    + vm_compute. reflexivity.
    + reflexivity.
    + simpl. lia.
    + reflexivity.
    + vm_compute. reflexivity.
  - apply (proj1 (proj2 multi_domain_first_match) "test@example.com"
             ["sample.com"] ["@@@"] "example.com");
      vm_compute; reflexivity.
Defined.

(** C9.  A falsy [max] (0, NaN, [null], or any other falsy value) is
    treated as an absent one: for every address and every [domains] the
    result is the same, it is neither of the two errors about [max], and
    without a domain restriction the bound of the standard pattern is the
    default 3. *)
Theorem falsy_max_as_absent :
  truthy (VNumber (Integer 0)) = false
  /\ truthy (VNumber NaN) = false
  /\ truthy VNull = false
  /\ (forall (email : string) (d m : value),
         truthy m = false ->
         checkEmail email (Options d m)
         = checkEmail email (Options d VUndefined))
  /\ (forall (email : string) (d m : value),
         truthy m = false ->
         checkEmail email (Options d m) <> Return max_type_error
         /\ checkEmail email (Options d m) <> Return max_with_domains_error)
  /\ (forall (email : string) (d m : value),
         truthy m = false ->
         absent_or_empty d ->
         checkEmail email (Options d m)
         = Return (getResponse (test (standard 3) email) (Some email) None)).
Proof.
  split; [reflexivity|]. split; [reflexivity|]. split; [reflexivity|].
  split; [|split].
  - intros email d m Hm.
    destruct (negb (truthy d) || is_empty_array d) eqn:Hd.
    + rewrite !checkEmail_unrestricted; auto; try (now left).
      unfold tld_bound. now rewrite Hm.
    + rewrite !checkEmail_restricted; auto.
  - intros email d m Hm.
    assert (H : forall r, checkEmail email (Options d m) = Return r ->
                          r <> max_type_error /\ r <> max_with_domains_error).
    { intros r Hr.
      destruct (falsy_max_results email d m r Hm Hr)
        as [-> | [-> | [-> | [(x & ->) | (x & ->)]]]];
        split; try discriminate;
        unfold not_a_valid_email, max_type_error, max_with_domains_error;
        intros [= E]; revert E; apply different_ending;
        vm_compute; reflexivity. }
    split; intros E; destruct (H _ E) as [H1 H2]; congruence.
  - intros email d m Hm Hd.
    apply checkEmail_default_bound; [now apply unrestricted_test | exact Hm].
Qed.

Lemma falsy_max_as_absent_witness :
  checkEmail "test@example.com"
    (Options (VString "example.com") (VNumber NaN))
  = checkEmail "test@example.com" (Options (VString "example.com") VUndefined)
  /\ checkEmail "test@example.com"
       (Options (VString "example.com") (VNumber (Integer 0)))
     <> Return max_with_domains_error
  /\ checkEmail "test@example.info" (Options (VArray []) VNull)
     = Return (getResponse (test (standard 3) "test@example.info")
                 (Some "test@example.info") None).
Proof.
  destruct falsy_max_as_absent as (_ & _ & _ & Hsame & Hnot & Hstd).
  split; [|split].
  - apply Hsame. reflexivity.
  - apply Hnot. reflexivity.
  - apply Hstd; [reflexivity | right; reflexivity].
Defined.

(** C10.  The empty string in [domains] is falsy, so it selects the
    same branch as an absent [domains]: for every address and every
    [max] the outcome is the same, and with no [max] it is the test
    against the standard pattern with the default bound. *)
Theorem empty_string_domains_as_absent :
  (forall (email : string) (m : value),
      checkEmail email (Options (VString "") m)
      = checkEmail email (Options VUndefined m))
  /\ (forall email : string,
         checkEmail email (Options (VString "") VUndefined)
         = Return (getResponse (test (standard 3) email)
                     (Some email) None)).
Proof.
  split.
  - intros email m.
    destruct (truthy m && negb (is_number m)) eqn:G.
    + apply andb_true_iff in G as [Ht Hn]. apply negb_true_iff in Hn.
      now rewrite !checkEmail_bad_max.
    + assert (Hg : passes_max_guard m).
      { apply andb_false_iff in G as [G | G]; [now left | right].
        now apply negb_false_iff in G. }
      now rewrite !checkEmail_unrestricted.
  - intros email. now apply checkEmail_default_bound.
Qed.

End Properties.

(* ================================================================= *)
(** ** The grammar of the patterns, without patterns *)

Module ShapeFacts.

Import Regex Reader Patterns RegexFacts ReaderFacts PatternFacts StringFacts.
Import Shapes.
Local Open Scope list_scope.
Local Open Scope char_scope.

Lemma accepts_separator (c : ascii) :
  accepts (CClass false [(".", "."); ("-", "-")]) c = is_separator c.
Proof.
  destruct c as [[] [] [] [] [] [] [] []]; reflexivity.
Qed.

Lemma separator_not_word (c : ascii) :
  is_separator c = true -> is_word c = false.
Proof.
  destruct c as [[] [] [] [] [] [] [] []]; intros H;
    vm_compute in H; try discriminate H; reflexivity.
Qed.

(** After a non-empty run of word characters. *)
Lemma separated_words (b : bool) (w t : word) :
  w <> [] -> forallb is_word w = true ->
  separated b (w ++ t) = separated true t.
Proof.
  revert b. induction w as [|c w IH]; intros b Hne Hw; [congruence|].
  cbn [forallb] in Hw. apply andb_true_iff in Hw as [Hc Hw].
  cbn [app separated]. rewrite Hc.
  destruct w as [|c' w]; [reflexivity|].
  apply IH; [discriminate | exact Hw].
Qed.


Lemma lang_word_run (s : word) :
  lang (Plus word_char) s <-> s <> [] /\ forallb is_word s = true.
Proof.
  unfold Plus, word_char. rewrite lang_rep_chr. unfold within. cbn [accepts xorb].
  split.
  - intros [[Hlo _] Hw]. split; [|exact Hw]. intros ->. simpl in Hlo. lia.
  - intros [Hne Hw]. split; [|exact Hw]. split; [|exact I].
    destruct s; [congruence | simpl; lia].
Qed.

Lemma lang_opt_separator (s : word) :
  lang (Opt separator) s
  <-> s = [] \/ exists c, s = [c] /\ is_separator c = true.
Proof.
  unfold Opt, separator. rewrite lang_rep_chr. unfold within. split.
  - intros [[_ Hhi] Hs]. destruct s as [|c [|c' s]].
    + now left.
    + right. exists c. cbn [forallb] in Hs. rewrite andb_true_r in Hs.
      now rewrite accepts_separator in Hs.
    + simpl in Hhi. lia.
  - intros [-> | (c & -> & Hc)].
    + repeat split; simpl; lia.
    + repeat split; try (simpl; lia).
      cbn [forallb]. now rewrite accepts_separator, Hc.
Qed.

(** One group of the repetition keeps a text separated. *)
Lemma separated_group (g t : word) :
  lang group g -> separated true (g ++ t) = separated true t.
Proof.
  intros (o & w & -> & Ho & Hw).
  apply lang_word_run in Hw as [Hne Hw].
  apply lang_opt_separator in Ho as [-> | (c & -> & Hc)].
  - cbn [app]. now apply separated_words.
  - rewrite <- app_assoc. cbn [app separated].
    rewrite (separator_not_word c Hc), Hc. cbn [andb].
    now apply separated_words.
Qed.

Lemma separated_groups (k : nat) (s t : word) :
  power (lang group) k s -> separated true (s ++ t) = separated true t.
Proof.
  revert s. induction k as [|k IH]; intros s H.
  - cbn in H. now subst s.
  - destruct H as (g & r & -> & Hg & Hr).
    rewrite <- app_assoc, (separated_group g _ Hg). now apply IH.
Qed.

Lemma star_groups_cons (g s : word) :
  lang group g -> lang (Star group) s -> lang (Star group) (g ++ s).
Proof.
  intros Hg (k & _ & Hk). exists (S k). split.
  - split; [lia | exact I].
  - exists g, s. auto.
Qed.

Lemma group_word (c : ascii) : is_word c = true -> lang group [c].
Proof.
  intros Hc. exists [], [c]. split; [reflexivity|]. split.
  - apply lang_opt_separator. now left.
  - apply lang_word_run. split; [discriminate|]. cbn. now rewrite Hc.
Qed.

Lemma group_separator_word (x c : ascii) :
  is_separator x = true -> is_word c = true -> lang group [x; c].
Proof.
  intros Hx Hc. exists [x], [c]. split; [reflexivity|]. split.
  - apply lang_opt_separator. right. eauto.
  - apply lang_word_run. split; [discriminate|]. cbn. now rewrite Hc.
Qed.

Lemma separated_star (s : word) :
  (separated true s = true -> lang (Star group) s)
  /\ (forall x, is_separator x = true -> separated false s = true ->
                lang (Star group) (x :: s)).
Proof.
  induction s as [|c s [IH1 IH2]].
  - split.
    + intros _. exists 0%nat. split; [|reflexivity]. split; [lia | exact I].
    + intros x _ H. discriminate H.
  - split.
    + cbn [separated]. destruct (is_word c) eqn:Hc.
      * intros H. apply (star_groups_cons [c] s); auto using group_word.
      * intros H. apply andb_true_iff in H as [H1 H2].
        rewrite andb_true_r in H1. now apply IH2.
    + intros x Hx. cbn [separated]. destruct (is_word c) eqn:Hc.
      * intros H. apply (star_groups_cons [x; c] s);
          auto using group_separator_word.
      * rewrite andb_false_r. discriminate.
Qed.

(** The grammar [\w+([.-]?\w+)*], without the pattern. *)
Theorem dotted_words_separated (s : word) :
  lang dotted_words s <-> separated false s = true.
Proof.
  unfold dotted_words. fold group. split.
  - intros (w & r & -> & Hw & (k & _ & Hr)).
    apply lang_word_run in Hw as [Hne Hw].
    rewrite (separated_words false w r Hne Hw).
    rewrite <- (app_nil_r r). now rewrite (separated_groups k r [] Hr).
  - destruct s as [|c s]; [discriminate|].
    cbn [separated]. destruct (is_word c) eqn:Hc.
    + intros H. exists [c], s. split; [reflexivity|]. split.
      * apply lang_word_run. split; [discriminate|]. cbn. now rewrite Hc.
      * now apply separated_star.
    + rewrite andb_false_r. discriminate.
Qed.





End ShapeFacts.

(* ================================================================= *)
(** ** The modes of [checkEmail] on shapes *)

Module ModeFacts.

Import Regex Reader Patterns RegexFacts ReaderFacts PatternFacts StringFacts.
Import CheckEmailFacts Shapes ShapeFacts.

#[local] Arguments new_RegExp : simpl never.
#[local] Arguments test : simpl never.
#[local] Arguments EMAIL_WITH_DOMAIN_REGEX : simpl never.


Lemma test_local_part (s : string) :
  test local_part s = true <-> dotted s = true.
Proof.
  unfold test, local_part, dotted.
  rewrite test_anchored. apply dotted_words_separated.
Qed.


(** A verdict on an address is [valid] or the generic error. *)
Lemma verdict (email : string) (b : bool) :
  (Return (getResponse b (Some email) None) = Return (Result true None)
   <-> b = true)
  /\ (b = false ->
      Return (getResponse b (Some email) None)
      = Return (not_a_valid_email email)).
Proof.
  destruct b; split; try discriminate; try reflexivity.
  - split; reflexivity.
  - split; discriminate.
Qed.




(** With one well-formed domain to restrict to. *)
Lemma checkEmail_single (email : string) (dv m : value) (d : string) :
  (dv = VString d /\ d <> "") \/ dv = strings [d] ->
  truthy m = false ->
  test DOMAIN_REGEX d = true ->
  checkEmail email (Options dv m)
  = Return (getResponse (test (exact_domain d) email) (Some email) None).
Proof.
  intros Hd Hm Hv.
  assert (R := read_valid_domain d Hv).
  destruct Hd as [[-> Hne] | ->].
  - rewrite checkEmail_restricted;
      [| now apply string_restricts | exact Hm].
    cbn [shape]. rewrite Hv. cbn [negb]. now rewrite R.
  - rewrite checkEmail_restricted;
      [| now apply strings_restrict | exact Hm].
    rewrite shape_strings, Hv. cbn [negb]. now rewrite R.
Qed.

End ModeFacts.

Module MoreFacts.

Import Regex Reader Patterns RegexFacts ReaderFacts PatternFacts StringFacts.
Import CheckEmailFacts Shapes ShapeFacts ModeFacts.

#[local] Arguments new_RegExp : simpl never.
#[local] Arguments test : simpl never.
#[local] Arguments EMAIL_WITH_DOMAIN_REGEX : simpl never.

Lemma valid_domain_nonempty (d : string) :
  test DOMAIN_REGEX d = true -> d <> "".
Proof.
  intros H.
  destruct (proj1 (DOMAIN_REGEX_format d) H) as (label & tld & -> & Hne & _).
  destruct label; [congruence | discriminate].
Qed.

Lemma forallb_In (f : string -> bool) (l : list string) (d : string) :
  forallb f l = true -> In d l -> f d = true.
Proof.
  intros H. now apply forallb_forall.
Qed.

(** With a list of two or more well-formed domains. *)
Lemma checkEmail_multi (email : string) (m : value) (l : list string) :
  (2 <= length l)%nat ->
  truthy m = false ->
  offending l = [] ->
  checkEmail email (Options (strings l) m)
  = Return (getResponse (existsb (fun d => test (exact_domain d) email) l)
              (Some email) None).
Proof.
  intros Hlen Hm Hok.
  rewrite checkEmail_restricted; [| apply strings_restrict | exact Hm].
  2:{ intros ->. simpl in Hlen. lia. }
  rewrite shape_strings.
  destruct l as [|a [|b l]]; [simpl in Hlen; lia | simpl in Hlen; lia |].
  rewrite validateDomains_result, Hok. cbn [error string_truthy].
  rewrite matchDomains_valid by now apply offending_nil.
  reflexivity.
Qed.

Lemma offending_permutation (l l' : list string) :
  Permutation l l' -> offending l = [] -> offending l' = [].
Proof.
  intros P H. apply offending_nil. apply offending_nil in H.
  apply forallb_forall. intros d Hd.
  apply (forallb_In _ l d H). now apply (Permutation_in d (Permutation_sym P)).
Qed.

Lemma existsb_permutation (f : string -> bool) (l l' : list string) :
  Permutation l l' -> existsb f l = existsb f l'.
Proof.
  intros P. induction P; cbn [existsb].
  - reflexivity.
  - now rewrite IHP.
  - destruct (f x), (f y); reflexivity.
  - congruence.
Qed.



Lemma all_strings (elems : list value) :
  forallb is_string elems = true ->
  elems = map VString (map to_string elems).
Proof.
  induction elems as [|e elems IH]; intros E; [reflexivity|].
  cbn [forallb] in E. apply andb_true_iff in E as [He E].
  cbn [map]. rewrite <- (IH E). destruct e; try discriminate. reflexivity.
Qed.

(** A value that is neither a string nor an array of strings. *)
Lemma shape_neither (d : value) :
  (forall s, d <> VString s) -> (forall l, d <> strings l) ->
  shape d = Neither.
Proof.
  intros Hs Hl. destruct d; try reflexivity.
  - now destruct (Hs s).
  - cbn [shape]. destruct (forallb is_string elems) eqn:E; [|reflexivity].
    exfalso. apply (Hl (map to_string elems)). unfold strings. f_equal.
    now apply all_strings.
Qed.

End MoreFacts.

(* ================================================================= *)
(** ** Bounds that are not digits *)

Module LiteralFacts.

Import Regex Reader Patterns RegexFacts ReaderFacts PatternFacts StringFacts.
Import CheckEmailFacts Shapes ShapeFacts ModeFacts MoreFacts.
Local Open Scope list_scope.
Local Open Scope char_scope.







End LiteralFacts.

(* ================================================================= *)
(** ** Further properties of [index.ts] *)

Section MoreProperties.

Import Regex Reader Patterns RegexFacts ReaderFacts PatternFacts StringFacts.
Import CheckEmailFacts Shapes ShapeFacts ModeFacts MoreFacts LiteralFacts.

#[local] Arguments new_RegExp : simpl never.
#[local] Arguments test : simpl never.
#[local] Arguments EMAIL_WITH_DOMAIN_REGEX : simpl never.





(** X3.  With one well-formed domain [d] to restrict to and no truthy
    [max], an address is valid exactly when it is [local@d] with [local]
    made of word characters joined by single dots or hyphens; any other
    address gets the generic error.  No bound applies to the last label
    of [d]. *)
Theorem single_domain_shape
    (email : string) (opts : CheckEmailOptions) (d : string) :
  (domains opts = VString d /\ d <> "") \/ domains opts = strings [d] ->
  truthy (max opts) = false ->
  test DOMAIN_REGEX d = true ->
  (checkEmail email opts = Return (Result true None)
   <-> exists local : string,
         email = local ++ "@" ++ d /\ dotted local = true)
  /\ ((forall local : string,
          email = local ++ "@" ++ d -> dotted local = false) ->
      checkEmail email opts = Return (not_a_valid_email email)).
Proof.
  destruct opts as [dv m]. cbn [domains max]. intros Hd Hm Hv.
  rewrite (checkEmail_single email dv m d Hd Hm Hv).
  destruct (verdict email (test (exact_domain d) email)) as [Hr Hg].
  assert (S : test (exact_domain d) email = true
              <-> exists local : string,
                    email = local ++ "@" ++ d /\ dotted local = true).
  { rewrite test_exact_domain. split; intros (l & E & H); exists l;
      (split; [exact E | now apply test_local_part]). }
  split.
  - now rewrite Hr.
  - intros Hn. apply Hg.
    destruct (test (exact_domain d) email) eqn:E; [|reflexivity].
    destruct (proj1 S eq_refl) as (l & El & Hl).
    rewrite (Hn l El) in Hl. discriminate.
Qed.

Lemma single_domain_shape_witness :
  checkEmail "first.last@example.museum"
    (Options (strings ["example.museum"]) VUndefined)
  = Return (Result true None).
Proof.
  destruct (single_domain_shape "first.last@example.museum"
              (Options (strings ["example.museum"]) VUndefined)
              "example.museum") as [H _].
  - right. reflexivity.
  - reflexivity.
  - vm_compute. reflexivity.
  - apply H. exists "first.last". split; reflexivity.
Defined.



(** X5.  With a list of two or more well-formed domains and no truthy
    [max], an address is valid exactly when it is valid under the
    restriction to one of the domains taken alone. *)
Theorem multi_domain_is_some_single_domain
    (email : string) (m : value) (l : list string) :
  (2 <= length l)%nat ->
  truthy m = false ->
  offending l = [] ->
  (checkEmail email (Options (strings l) m) = Return (Result true None)
   <-> exists d, In d l
                 /\ checkEmail email (Options (VString d) m)
                    = Return (Result true None)).
Proof.
  intros Hlen Hm Hok.
  rewrite (checkEmail_multi email m l Hlen Hm Hok).
  rewrite (proj1 (verdict email _)), existsb_exists.
  assert (Hall := proj1 (offending_nil l) Hok).
  split; intros (d & Hin & Hd); exists d; (split; [exact Hin|]);
    pose proof (forallb_In _ l d Hall Hin) as Hv;
    rewrite (checkEmail_single email (VString d) m d) in *;
    auto using valid_domain_nonempty;
    now apply (proj1 (verdict email _)).
Qed.

Lemma multi_domain_is_some_single_domain_witness :
  checkEmail "a-b@test.org"
    (Options (strings ["sample.com"; "test.org"]) VNull)
  = Return (Result true None).
Proof.
  apply (multi_domain_is_some_single_domain "a-b@test.org" VNull
           ["sample.com"; "test.org"]).
  - simpl. lia.
  - reflexivity.
  - vm_compute. reflexivity.
  - exists "test.org". split; [right; left; reflexivity|].
    vm_compute. reflexivity.
Defined.

(** X6.  The order of a list of well-formed domains does not matter:
    a reordered list gives the same result for every address. *)
Theorem domain_order_irrelevant
    (email : string) (m : value) (l l' : list string) :
  Permutation l l' ->
  (2 <= length l)%nat ->
  truthy m = false ->
  offending l = [] ->
  checkEmail email (Options (strings l') m)
  = checkEmail email (Options (strings l) m).
Proof.
  intros P Hlen Hm Hok.
  rewrite (checkEmail_multi email m l Hlen Hm Hok).
  rewrite (checkEmail_multi email m l');
    [| now rewrite <- (Permutation_length P) | exact Hm
     | now apply (offending_permutation l l') ].
  now rewrite (existsb_permutation _ l l' P).
Qed.

Lemma domain_order_irrelevant_witness :
  checkEmail "test@example.com"
    (Options (strings ["example.com"; "sample.com"]) VUndefined)
  = checkEmail "test@example.com"
      (Options (strings ["sample.com"; "example.com"]) VUndefined).
Proof.
  apply (domain_order_irrelevant "test@example.com" VUndefined
           ["sample.com"; "example.com"] ["example.com"; "sample.com"]).
  - apply perm_swap.
  - simpl. lia.
  - reflexivity.
  - vm_compute. reflexivity.
Defined.

(** X7.  A list of one domain behaves as that domain given as a string,
    for every address and every [max]. *)
Theorem one_element_list_as_string (email d : string) (m : value) :
  d <> "" ->
  checkEmail email (Options (strings [d]) m)
  = checkEmail email (Options (VString d) m).
Proof.
  intros Hne.
  destruct (truthy m && negb (is_number m)) eqn:G.
  { apply andb_true_iff in G as [Ht Hn]. apply negb_true_iff in Hn.
    now rewrite !checkEmail_bad_max. }
  destruct (truthy m) eqn:Ht.
  { rewrite andb_true_l in G. apply negb_false_iff in G.
    rewrite (checkEmail_max_with_domains email (strings [d]) m)
      by (reflexivity || assumption).
    rewrite (checkEmail_max_with_domains email (VString d) m)
      by (reflexivity || assumption || now apply string_restricts).
    reflexivity. }
  rewrite (checkEmail_restricted email (strings [d]) m)
    by (reflexivity || assumption).
  rewrite (checkEmail_restricted email (VString d) m)
    by (assumption || now apply string_restricts).
  rewrite shape_strings. reflexivity.
Qed.

Lemma one_element_list_as_string_witness :
  checkEmail "test@example.com" (Options (strings ["example.com"]) VNull)
  = checkEmail "test@example.com" (Options (VString "example.com") VNull).
Proof.
  apply (one_element_list_as_string "test@example.com" "example.com" VNull).
  discriminate.
Defined.

(** X8.  Every falsy [domains] ([null], [false], 0, NaN, the empty
    string) and the empty list behave as an absent [domains], for every
    address and every [max]. *)
Theorem falsy_domains_as_absent (email : string) (d m : value) :
  truthy d = false \/ d = VArray [] ->
  checkEmail email (Options d m) = checkEmail email (Options VUndefined m).
Proof.
  intros Hd.
  assert (U : negb (truthy d) || is_empty_array d = true)
    by (destruct Hd as [-> | ->]; reflexivity).
  destruct (truthy m && negb (is_number m)) eqn:G.
  { apply andb_true_iff in G as [Ht Hn]. apply negb_true_iff in Hn.
    now rewrite !checkEmail_bad_max. }
  assert (Hg : passes_max_guard m).
  { apply andb_false_iff in G as [G | G]; [now left | right].
    now apply negb_false_iff in G. }
  now rewrite !checkEmail_unrestricted.
Qed.

Lemma falsy_domains_as_absent_witness :
  checkEmail "test@example.info" (Options VNull (VNumber (Integer 4)))
  = checkEmail "test@example.info"
      (Options VUndefined (VNumber (Integer 4))).
Proof.
  apply (falsy_domains_as_absent "test@example.info" VNull). now left.
Defined.

(** X9.  A truthy [domains] that is neither a string nor an array of
    strings gives the type error on [domains], whatever the address;
    a [max] that passes its own guard does not change that, so the check
    comes before the one on [max] used with [domains]. *)
Theorem domains_type_checked_before_max
    (email : string) (opts : CheckEmailOptions) :
  truthy (domains opts) = true ->
  (forall s, domains opts <> VString s) ->
  (forall l, domains opts <> strings l) ->
  passes_max_guard (max opts) ->
  checkEmail email opts
  = Return (Result false
      (Some "`domains` can only have a value of string or array of strings.")).
Proof.
  destruct opts as [d m]. cbn [domains max]. intros Ht Hs Hl Hg.
  assert (Hn := shape_neither d Hs Hl).
  assert (He : is_empty_array d = false).
  { destruct d as [| | | | |[|e elems]|]; try reflexivity.
    now destruct (Hl []). }
  unfold checkEmail. cbv zeta. cbn [domains max].
  rewrite truthy_default, is_number_default, (guard_passed m Hg), Ht, He.
  unfold isStringOrArray. rewrite Hn. reflexivity.
Qed.

Lemma domains_type_checked_before_max_witness :
  checkEmail "test@example.com"
    (Options (VArray [VString "example.com"; VNumber (Integer 7)])
       (VNumber (Integer 3)))
  = Return (Result false
      (Some "`domains` can only have a value of string or array of strings.")).
Proof.
  apply (domains_type_checked_before_max "test@example.com"
           (Options (VArray [VString "example.com"; VNumber (Integer 7)])
              (VNumber (Integer 3)))).
  - reflexivity.
  - discriminate.
  - intros [|a [|b l]]; discriminate.
  - right. reflexivity.
Defined.




(** X12.  For a label and an extension made of word characters the
    domain template is a well-formed pattern, and it accepts exactly the
    addresses [local@label.extension] whose local part is made of word
    characters joined by single dots or hyphens. *)
Theorem domain_template_accepts (name extension : string) :
  all_word name = true ->
  all_word extension = true ->
  exists re,
    EMAIL_WITH_DOMAIN_REGEX name extension = Return re
    /\ forall email : string,
         test re email = true
         <-> exists local : string,
               email = local ++ "@" ++ name ++ "." ++ extension
               /\ dotted local = true.
Proof.
  intros Hn He. exists (exact_domain (name ++ "." ++ extension)).
  split; [now apply read_exact_domain|].
  intros email. rewrite test_exact_domain.
  split; intros (l & E & H); exists l;
    (split; [exact E | now apply test_local_part]).
Qed.

Lemma domain_template_accepts_witness :
  exists re,
    EMAIL_WITH_DOMAIN_REGEX "my_site1" "io" = Return re
    /\ forall email : string,
         test re email = true
         <-> exists local : string,
               email = local ++ "@" ++ "my_site1" ++ "." ++ "io"
               /\ dotted local = true.
Proof.
  apply (domain_template_accepts "my_site1" "io"); reflexivity.
Defined.

(** X13.  [validateDomains] accepts a list exactly when every domain in
    it is a non-empty label of word characters, a dot and two or more
    letters; it then carries no error.  Otherwise its error lists, in
    brackets, exactly the domains of the list that fail the format. *)
Theorem validateDomains_accepts (l : list string) :
  (valid (validateDomains l) = true
   <-> forall d, In d l ->
         exists label tld : string,
           d = label ++ "." ++ tld
           /\ label <> ""
           /\ all_word label = true
           /\ (2 <= String.length tld)%nat
           /\ forallb is_alpha (list_ascii_of_string tld) = true)
  /\ (valid (validateDomains l) = true -> error (validateDomains l) = None)
  /\ (valid (validateDomains l) = false ->
      exists bad : list string,
        bad <> []
        /\ (forall d, In d bad <-> In d l /\ test DOMAIN_REGEX d = false)
        /\ error (validateDomains l)
           = Some ("[" ++ String.concat ", " bad
                   ++ "] are not valid domains.")).
Proof.
  rewrite validateDomains_result.
  destruct (offending l) as [|x bad] eqn:Ho.
  - cbn [valid error]. split; [|split; [reflexivity | discriminate]].
    split; [|reflexivity]. intros _ d Hd.
    apply DOMAIN_REGEX_format.
    apply (forallb_In _ l d); [now apply offending_nil | exact Hd].
  - cbn [valid error]. split; [|split; [discriminate|]].
    + split; [discriminate|]. intros H. exfalso.
      assert (Hx : In x (offending l)) by (rewrite Ho; now left).
      unfold offending in Hx. apply filter_In in Hx as [Hin Hf].
      apply negb_true_iff in Hf.
      rewrite (proj2 (DOMAIN_REGEX_format x) (H x Hin)) in Hf. discriminate.
    + intros _. exists (x :: bad). split; [discriminate|]. split; [|reflexivity].
      intros d. rewrite <- Ho. unfold offending. rewrite filter_In.
      now rewrite negb_true_iff.
Qed.

Lemma validateDomains_accepts_witness :
  error (validateDomains ["ok.com"; "my_site1.io"]) = None.
Proof.
  apply (proj1 (proj2 (validateDomains_accepts ["ok.com"; "my_site1.io"]))).
  vm_compute. reflexivity.
Defined.

End MoreProperties.
